(** * Retrieval layer of the knowledge manager (knowledge/rag_manager.py)

    A shallow embedding of [EmbeddingCache] and [RAGManager]: the
    embedding cache with its batched durable writes, the three search
    strategies, their fusion, and the exact/related lookups.

    Conventions.
    - A Python [str] is a Rocq [string] of ASCII characters (for such
      text the UTF-8 encoding is the byte sequence itself).
    - A Python [int] is a [Z]; a Python [float] is an IEEE-754 binary64
      value, written as a [spec_float] and computed with the binary64
      operations of [SpecFloat].
    - A Python exception is a value [Raise e] of the [result] monad;
      [try ... except Exception] is a match on it.
    - [self] is passed and returned explicitly wherever a method can
      assign one of its attributes.
    - [list.sort] on float keys is the stable sort where no key is NaN;
      what it leaves when a key is NaN is taken from the environment. *)

From Stdlib Require Import ZArith List String Ascii Sorted Permutation Lia.
From Stdlib Require Import Floats.SpecFloat.
From stdpp Require Import gmap strings list fin_maps.

Set Default Proof Using "Type".

(** ** Python values and built-ins used by the module *)

Module Py.

Inductive exn : Type :=
  | ZeroDivisionError
  | ValueError
  | RuntimeError.

Inductive result (A : Type) : Type :=
  | Return (a : A)
  | Raise (e : exn).
Arguments Return {A} a.
Arguments Raise {A} e.

#[export] Instance result_ret : MRet result := @Return.
#[export] Instance result_bind : MBind result :=
  fun A B f m => match m with Return a => f a | Raise e => Raise e end.

(** *** float *)

Abbreviation float := spec_float.

Definition f64_prec : Z := 53.
Definition f64_emax : Z := 1024.

Definition float_div : float -> float -> float := SFdiv f64_prec f64_emax.

(** [x < y] and [x >= y] on floats; both are [False] when a NaN is
    involved. *)
Definition float_lt (x y : float) : bool := SFltb x y.
Definition float_ge (x y : float) : bool := SFleb y x.

Definition is_nan (x : float) : bool :=
  match x with S754_nan => true | _ => false end.

(** The integer [z] as the (unrounded) binary number [z * 2^0]. *)
Definition int_as_binary (z : Z) : float :=
  match z with
  | Z0 => S754_zero false
  | Zpos p => S754_finite false p 0
  | Zneg p => S754_finite true p 0
  end.

(** [a / b] on two ints: the correctly rounded quotient, or
    [ZeroDivisionError].  (The quotients formed in this module are at
    most 2, so the overflow error of very large quotients is not
    reachable and is not modelled.) *)
Definition int_truediv (a b : Z) : result float :=
  if (b =? 0)%Z then Raise ZeroDivisionError
  else Return (float_div (int_as_binary a) (int_as_binary b)).

(** [float(x)] for a NumPy floating scalar [x] of any width: the same
    number in binary64. *)
Definition to_float (x : float) : float :=
  match x with
  | S754_finite s m e => binary_round f64_prec f64_emax s m e
  | _ => x
  end.

(** *** str *)

Definition is_upper (c : ascii) : bool :=
  let n := nat_of_ascii c in (65 <=? n)%nat && (n <=? 90)%nat.

Definition lower_char (c : ascii) : ascii :=
  if is_upper c then ascii_of_nat (nat_of_ascii c + 32) else c.

(** [s.lower()] *)
Fixpoint lower (s : string) : string :=
  match s with
  | EmptyString => EmptyString
  | String c s' => String (lower_char c) (lower s')
  end.

(** The ASCII characters [str.split()] treats as whitespace:
    TAB, LF, VT, FF, CR, FS, GS, RS, US and SPACE. *)
Definition is_space (c : ascii) : bool :=
  let n := nat_of_ascii c in
  ((9 <=? n)%nat && (n <=? 13)%nat) || ((28 <=? n)%nat && (n <=? 32)%nat).

(** [split_aux s cur] scans [s]; [cur] is the token being read, its
    characters in reverse order. *)
Fixpoint split_aux (s : string) (cur : list ascii) : list string :=
  let flush := match cur with
               | [] => []
               | _ => [string_of_list_ascii (rev cur)]
               end in
  match s with
  | EmptyString => flush
  | String c s' =>
      if is_space c then flush ++ split_aux s' []
      else split_aux s' (c :: cur)
  end.

(** [s.split()] *)
Definition split (s : string) : list string := split_aux s [].

(** [sub in s] *)
Fixpoint contains (sub s : string) : bool :=
  String.prefix sub s ||
  match s with
  | EmptyString => false
  | String _ s' => contains sub s'
  end.

(** *** list *)

(** [l[:k]] *)
Definition slice_to {A : Type} (l : list A) (k : Z) : list A :=
  if (0 <=? k)%Z then take (Z.to_nat k) l
  else take (length l - Z.to_nat (- k)) l.

(** [l.sort(key=key, reverse=True)] on keys none of which is NaN: the
    stable sort into descending key order.  Only [<] is used on keys, as
    in CPython; on keys without NaN the result is the one stable
    descending arrangement, which is what any stable algorithm produces.
    The keyword scores, the context scores and the scores that pass
    [>= min_similarity] are never NaN, so this is the sort of
    [_keyword_search], [_context_search] and [search_apis]; a cosine
    score can be NaN, and [_semantic_search] sorts with
    [list_sort_reverse] below. *)
Section Sort.
Context {A : Type} (key : A -> float).

Fixpoint insert_desc (x : A) (l : list A) : list A :=
  match l with
  | [] => [x]
  | y :: l' =>
      if float_lt (key x) (key y) then y :: insert_desc x l' else x :: l
  end.

Definition sort_desc (l : list A) : list A := foldr insert_desc [] l.

(** Every element is [>=] all the later ones. *)
Definition descending (l : list A) : Prop :=
  StronglySorted (fun a b => float_ge (key a) (key b) = true) l.

End Sort.

(** [l.sort(key=key, reverse=True)] on any float keys.  When a key is
    NaN, [<] is no order and what the sort leaves depends on the steps of
    CPython's algorithm: it is some rearrangement of [l], determined by
    the sequence of keys alone.  [order] gives, for a sequence of keys,
    the positions in the order the sort leaves them, and [arrange] puts
    [l] in that order; a position that [order] does not list goes last
    and only its first occurrence counts, so that [arrange] rearranges
    [l] whatever [order] is. *)
Section Arrange.
Context {A : Type}.

(** Where position [i] stands in [order]. *)
Definition rank (order : list nat) (i : nat) : nat :=
  match list_find (fun j => j = i) order with
  | Some (k, _) => k
  | None => length order
  end.

Fixpoint ranked (order : list nat) (i : nat) (l : list A) : list (nat * A) :=
  match l with
  | [] => []
  | x :: l' => (rank order i, x) :: ranked order (S i) l'
  end.

Fixpoint insert_rank (x : nat * A) (l : list (nat * A)) : list (nat * A) :=
  match l with
  | [] => [x]
  | y :: l' => if (y.1 <? x.1)%nat then y :: insert_rank x l' else x :: l
  end.

Definition arrange (order : list nat) (l : list A) : list A :=
  (foldr insert_rank [] (ranked order 0 l)).*2.

Definition list_sort_reverse (order : list float -> list nat) (key : A -> float)
    (l : list A) : list A :=
  if forallb (fun x => negb (is_nan (key x))) l then sort_desc key l
  else arrange (order (key <$> l)) l.

End Arrange.

End Py.

(** ** hashlib.md5 (RFC 1321), on bytes as numbers below 256 *)

Module MD5.
Local Open Scope Z_scope.

Definition w32 (x : Z) : Z := x mod 2^32.

Definition rotl32 (x c : Z) : Z :=
  w32 (Z.lor (Z.shiftl x c) (Z.shiftr x (32 - c))).

Definition lnot32 (x : Z) : Z := Z.lxor x (2^32 - 1).

Definition shifts : list Z :=
  [7; 12; 17; 22; 7; 12; 17; 22; 7; 12; 17; 22; 7; 12; 17; 22;
   5; 9; 14; 20; 5; 9; 14; 20; 5; 9; 14; 20; 5; 9; 14; 20;
   4; 11; 16; 23; 4; 11; 16; 23; 4; 11; 16; 23; 4; 11; 16; 23;
   6; 10; 15; 21; 6; 10; 15; 21; 6; 10; 15; 21; 6; 10; 15; 21].

(** [floor (2^32 * |sin (i + 1)|)] for [i] from 0 to 63. *)
Definition sines : list Z :=
  [3614090360; 3905402710; 606105819; 3250441966; 4118548399; 1200080426;
   2821735955; 4249261313; 1770035416; 2336552879; 4294925233; 2304563134;
   1804603682; 4254626195; 2792965006; 1236535329; 4129170786; 3225465664;
   643717713; 3921069994; 3593408605; 38016083; 3634488961; 3889429448;
   568446438; 3275163606; 4107603335; 1163531501; 2850285829; 4243563512;
   1735328473; 2368359562; 4294588738; 2272392833; 1839030562; 4259657740;
   2763975236; 1272893353; 4139469664; 3200236656; 681279174; 3936430074;
   3572445317; 76029189; 3654602809; 3873151461; 530742520; 3299628645;
   4096336452; 1126891415; 2878612391; 4237533241; 1700485571; 2399980690;
   4293915773; 2240044497; 1873313359; 4264355552; 2734768916; 1309151649;
   4149444226; 3174756917; 718787259; 3951481745].

(** [n] as [k] little-endian bytes. *)
Fixpoint le_bytes (k : nat) (n : Z) : list Z :=
  match k with
  | O => []
  | S k' => n mod 256 :: le_bytes k' (n / 256)
  end.

Fixpoint le_word (bs : list Z) : Z :=
  match bs with
  | [] => 0
  | b :: bs' => b + 256 * le_word bs'
  end.

(** Message, one [0x80] byte, zeros up to 56 modulo 64, then the bit
    length in 8 little-endian bytes. *)
Definition pad (msg : list Z) : list Z :=
  let n := Z.of_nat (length msg) in
  let zeros := Z.to_nat ((55 - n) mod 64) in
  msg ++ [128] ++ replicate zeros 0 ++ le_bytes 8 ((8 * n) mod 2^64).

Fixpoint chunks (fuel : nat) (k : nat) (bs : list Z) : list (list Z) :=
  match fuel, bs with
  | O, _ | _, [] => []
  | S fuel', _ => take k bs :: chunks fuel' k (drop k bs)
  end.

Definition words_of_block (block : list Z) : list Z :=
  le_word <$> chunks 16 4 block.

Record state : Type := State { sa : Z; sb : Z; sc : Z; sd : Z }.

Definition init : state :=
  State 1732584193 4023233417 2562383102 271733878.

Definition step (M : list Z) (st : state) (i : Z) : state :=
  let '(State A B C D) := st in
  let '(F, g) :=
    if i <? 16 then (Z.lor (Z.land B C) (Z.land (lnot32 B) D), i)
    else if i <? 32 then (Z.lor (Z.land D B) (Z.land (lnot32 D) C), (5 * i + 1) mod 16)
    else if i <? 48 then (Z.lxor (Z.lxor B C) D, (3 * i + 5) mod 16)
    else (Z.lxor C (Z.lor B (lnot32 D)), (7 * i) mod 16) in
  let F := w32 (F + A + nth (Z.to_nat i) sines 0 + nth (Z.to_nat g) M 0) in
  State D (w32 (B + rotl32 F (nth (Z.to_nat i) shifts 0))) B C.

Definition process_block (st : state) (block : list Z) : state :=
  let M := words_of_block block in
  let '(State A B C D) := foldl (step M) st (Z.of_nat <$> seq 0 64) in
  State (w32 (sa st + A)) (w32 (sb st + B)) (w32 (sc st + C)) (w32 (sd st + D)).

Definition digest (msg : list Z) : list Z :=
  let p := pad msg in
  let '(State A B C D) := foldl process_block init (chunks (length p) 64 p) in
  le_bytes 4 A ++ le_bytes 4 B ++ le_bytes 4 C ++ le_bytes 4 D.

Definition hex_digit (n : Z) : ascii :=
  if n <? 10 then ascii_of_nat (48 + Z.to_nat n) else ascii_of_nat (87 + Z.to_nat n).

Fixpoint hex (bs : list Z) : string :=
  match bs with
  | [] => EmptyString
  | b :: bs' => String (hex_digit (b / 16)) (String (hex_digit (b mod 16)) (hex bs'))
  end.

(** [text.encode('utf-8')] for ASCII text. *)
Definition encode_utf8 (text : string) : list Z :=
  (fun c => Z.of_nat (nat_of_ascii c)) <$> list_ascii_of_string text.

(** [hashlib.md5(bs).hexdigest()] *)
Definition hexdigest (bs : list Z) : string := hex (digest bs).

End MD5.

(** ** The environment: NumPy, sentence-transformers and the interpreter

    [ndarray] is the type of embedding vectors.  [np_dot] raises
    [ValueError] on arrays whose shapes do not agree.  NumPy floating
    scalars have the format of the array's dtype ([np_prec], [np_emax]);
    their [*] and [/] are the IEEE operations of that format, which
    signal a division by zero with a warning and return an infinity or
    NaN.  [SentenceTransformer] is the outcome of constructing the model
    ['all-MiniLM-L6-v2'], and [encode] may raise.

    [sort_order] belongs to the interpreter: the order in which its
    [list.sort(reverse=True)] leaves the positions of a list with the
    given keys, consulted by [Py.list_sort_reverse] only when a key is
    NaN. *)

Class Libs (ndarray Model : Type) : Type := {
  np_prec : Z;
  np_emax : Z;
  np_dot : ndarray -> ndarray -> Py.result Py.float;
  np_linalg_norm : ndarray -> Py.float;
  SentenceTransformer : Py.result Model;
  encode : Model -> string -> Py.result ndarray;
  sort_order : list Py.float -> list nat
}.

Definition np_mul `{Libs ndarray Model} : Py.float -> Py.float -> Py.float :=
  SFmul np_prec np_emax.
Definition np_div `{Libs ndarray Model} : Py.float -> Py.float -> Py.float :=
  SFdiv np_prec np_emax.

(** ** class EmbeddingCache *)

Module EmbeddingCache.
Import Py.

Section Cache.
Context {ndarray : Type}.

(** [cache] and [metadata] are the attributes of the object;
    [cache_file] and [metadata_file] are the two files of the cache
    directory, each given by what reading it yields ([None] while the
    file does not exist, [Raise] when it does not parse).  [dumps] counts
    the calls of [pickle.dump], so that a write is visible even when it
    stores what the file already held.  Writes are assumed to succeed:
    the error branch of [_save_cache] only logs. *)
Record t : Type := Build {
  cache : gmap string ndarray;
  metadata : list (string * option string);
  cache_file : option (result (gmap string ndarray));
  metadata_file : option (result (list (string * option string)));
  dumps : nat
}.

Definition default_metadata : list (string * option string) :=
  [("version"%string, Some "1.0"%string); ("model"%string, None); ("created"%string, None)].

(** [__init__] with [_load_cache], on a cache directory holding the two
    given files. *)
Definition _load_cache
    (cache_file : option (result (gmap string ndarray)))
    (metadata_file : option (result (list (string * option string)))) : t :=
  let loaded :=
    c ← match cache_file with Some r => r | None => Return ∅ end;
    m ← match metadata_file with Some r => r | None => Return default_metadata end;
    Return (c, m) in
  match loaded with
  | Return (c, m) => Build c m cache_file metadata_file 0
  | Raise _ => Build ∅ default_metadata cache_file metadata_file 0
  end.

Definition _save_cache (self : t) : t :=
  Build (cache self) (metadata self)
        (Some (Return (cache self))) (Some (Return (metadata self)))
        (S (dumps self)).

Definition _get_cache_key (self : t) (text : string) : string :=
  MD5.hexdigest (MD5.encode_utf8 text).

Definition get (self : t) (text : string) : option ndarray :=
  let key := _get_cache_key self text in
  cache self !! key.

Definition set (self : t) (text : string) (embedding : ndarray) : t :=
  let key := _get_cache_key self text in
  let self := Build (<[key := embedding]> (cache self)) (metadata self)
                    (cache_file self) (metadata_file self) (dumps self) in
  if (Z.of_nat (size (cache self)) mod 10 =? 0)%Z then _save_cache self else self.

Definition save (self : t) : t := _save_cache self.

End Cache.

Arguments t : clear implicits.

End EmbeddingCache.

(** ** class RAGManager *)

Module RAGManager.
Import Py.

Section Manager.
Context {ndarray Model : Type} {L : Libs ndarray Model}.

Record APIDocEntry : Type := Build_APIDocEntry {
  api_name : string;
  library : string;
  signature : string;
  description : string;
  parameters : list (string * string);
  returns : string;
  example : string;
  usage_context : string;
  related_apis : list string;
  common_pitfalls : string;
  embedding : option ndarray
}.

Record SearchResult : Type := Build_SearchResult {
  api_doc : APIDocEntry;
  similarity_score : float;
  match_type : string
}.

Record t : Type := Build {
  api_docs : list APIDocEntry;
  embedding_model : option Model;
  embedding_cache : EmbeddingCache.t ndarray
}.

Definition set_embedding (d : APIDocEntry) (e : option ndarray) : APIDocEntry :=
  Build_APIDocEntry (api_name d) (library d) (signature d) (description d)
    (parameters d) (returns d) (example d) (usage_context d)
    (related_apis d) (common_pitfalls d) e.

Definition _init_embedding_model (self : t) : t :=
  match embedding_model self with
  | None =>
      match SentenceTransformer with
      | Return m => Build (api_docs self) (Some m) (embedding_cache self)
      | Raise _ => Build (api_docs self) None (embedding_cache self)
      end
  | Some _ => self
  end.

(** The loop of [_precompute_embeddings]: the documents with their
    embeddings assigned, and the cache after the insertions. *)
Fixpoint precompute_loop (model : Model) (docs : list APIDocEntry)
    (ec : EmbeddingCache.t ndarray) : list APIDocEntry * EmbeddingCache.t ndarray :=
  match docs with
  | [] => ([], ec)
  | api_doc :: rest =>
      let combined_text :=
        api_name api_doc +:+ " " +:+ description api_doc +:+ " " +:+ usage_context api_doc in
      match EmbeddingCache.get ec combined_text with
      | Some cached_embedding =>
          let '(rest', ec') := precompute_loop model rest ec in
          (set_embedding api_doc (Some cached_embedding) :: rest', ec')
      | None =>
          match encode model combined_text with
          | Return e =>
              let '(rest', ec') :=
                precompute_loop model rest (EmbeddingCache.set ec combined_text e) in
              (set_embedding api_doc (Some e) :: rest', ec')
          | Raise _ =>
              let '(rest', ec') := precompute_loop model rest ec in
              (api_doc :: rest', ec')
          end
      end
  end.

Definition _precompute_embeddings (self : t) : t :=
  let self := _init_embedding_model self in
  match embedding_model self with
  | None => self
  | Some model =>
      let '(docs, ec) := precompute_loop model (api_docs self) (embedding_cache self) in
      Build docs (embedding_model self) (EmbeddingCache.save ec)
  end.

(** The loop over the entries of one JSON file: an entry that is not an
    object makes [api_data.get] raise, which ends the file with the
    entries before it already appended. *)
Fixpoint append_apis (apis : list (result APIDocEntry)) (docs : list APIDocEntry)
    : list APIDocEntry :=
  match apis with
  | [] => docs
  | Return api_data :: rest => append_apis rest (docs ++ [set_embedding api_data None])
  | Raise _ :: _ => docs
  end.

(** [load_knowledge_base] on a directory whose JSON files parse to the
    given lists of entries ([Raise] for a file that fails to load). *)
Definition load_knowledge_base (self : t)
    (json_files : list (result (list (result APIDocEntry)))) : t :=
  let loaded :=
    foldl (fun docs json_file =>
             match json_file with
             | Return apis => append_apis apis docs
             | Raise _ => docs
             end) [] json_files in
  let self := Build loaded (embedding_model self) (embedding_cache self) in
  match api_docs self with
  | [] => self
  | _ => _precompute_embeddings self
  end.

(** *** The three strategies *)

Fixpoint semantic_loop (query_embedding : ndarray) (docs : list APIDocEntry)
    (results : list SearchResult) : result (list SearchResult) :=
  match docs with
  | [] => Return results
  | api_doc :: rest =>
      match embedding api_doc with
      | Some e =>
          d ← np_dot query_embedding e;
          let similarity :=
            np_div d (np_mul (np_linalg_norm query_embedding) (np_linalg_norm e)) in
          semantic_loop query_embedding rest
            (results ++ [Build_SearchResult api_doc (to_float similarity) "semantic"])
      | None => semantic_loop query_embedding rest results
      end
  end.

Definition _semantic_search (self : t) (query : string) (top_k : Z)
    : t * list SearchResult :=
  let self := _init_embedding_model self in
  match embedding_model self with
  | None => (self, [])
  | Some model =>
      let attempt :=
        query_embedding ← encode model query;
        results ← semantic_loop query_embedding (api_docs self) [];
        Return (slice_to (list_sort_reverse sort_order similarity_score results) top_k) in
      match attempt with
      | Return results => (self, results)
      | Raise _ => (self, [])
      end
  end.

(** The inner loop of [_keyword_search] over the set of query words. *)
Definition keyword_matches (query_words : gset string)
    (search_text name_lower : string) : Z :=
  foldl (fun matches word =>
           if contains word search_text then
             if contains word name_lower then matches + 1 + 1 else matches + 1
           else matches)%Z
        0%Z (elements query_words).

Fixpoint keyword_loop (query_words : gset string) (docs : list APIDocEntry)
    (results : list SearchResult) : result (list SearchResult) :=
  match docs with
  | [] => Return results
  | api_doc :: rest =>
      let search_text :=
        lower (api_name api_doc +:+ " " +:+ description api_doc +:+ " " +:+ signature api_doc) in
      let matches := keyword_matches query_words search_text (lower (api_name api_doc)) in
      if (0 <? matches)%Z then
        score ← int_truediv matches (Z.of_nat (size query_words));
        keyword_loop query_words rest
          (results ++ [Build_SearchResult api_doc score "keyword"])
      else keyword_loop query_words rest results
  end.

Definition _keyword_search (self : t) (query : string) (top_k : Z)
    : result (list SearchResult) :=
  let query_lower := lower query in
  let query_words : gset string := list_to_set (split query_lower) in
  results ← keyword_loop query_words (api_docs self) [];
  Return (slice_to (sort_desc similarity_score results) top_k).

Fixpoint context_loop (query_lower : string) (docs : list APIDocEntry)
    (results : list SearchResult) : result (list SearchResult) :=
  match docs with
  | [] => Return results
  | api_doc :: rest =>
      let context_text := lower (usage_context api_doc) in
      if contains query_lower context_text
         || existsb (fun word => contains word context_text) (split query_lower)
      then
        let common : gset string :=
          list_to_set (split query_lower) ∩ list_to_set (split context_text) in
        score ← int_truediv (Z.of_nat (size common))
                            (Z.of_nat (length (split query_lower)));
        context_loop query_lower rest
          (results ++ [Build_SearchResult api_doc score "context"])
      else context_loop query_lower rest results
  end.

Definition _context_search (self : t) (query : string) (top_k : Z)
    : result (list SearchResult) :=
  let query_lower := lower query in
  results ← context_loop query_lower (api_docs self) [];
  Return (slice_to (sort_desc similarity_score results) top_k).

(** *** Fusion *)

(** The deduplication loop of [search_apis]. *)
Fixpoint unique_loop (min_similarity : float) (results : list SearchResult)
    (seen_apis : gset string) (unique_results : list SearchResult)
    : list SearchResult :=
  match results with
  | [] => unique_results
  | r :: rest =>
      if bool_decide (api_name (api_doc r) ∉ seen_apis)
         && float_ge (similarity_score r) min_similarity
      then unique_loop min_similarity rest
             ({[api_name (api_doc r)]} ∪ seen_apis) (unique_results ++ [r])
      else unique_loop min_similarity rest seen_apis unique_results
  end.

Definition search_apis (self : t) (query : string) (top_k : Z)
    (min_similarity : float) : t * result (list SearchResult) :=
  match api_docs self with
  | [] => (self, Return [])
  | _ =>
      let '(self, semantic_results) := _semantic_search self query (top_k * 2) in
      (self,
       keyword_results ← _keyword_search self query top_k;
       context_results ← _context_search self query top_k;
       let results := [] ++ semantic_results ++ keyword_results ++ context_results in
       let unique_results := unique_loop min_similarity results ∅ [] in
       Return (slice_to (sort_desc similarity_score unique_results) top_k))
  end.

(** *** Lookups *)

Fixpoint get_api_by_name_in (docs : list APIDocEntry) (name : string)
    : option APIDocEntry :=
  match docs with
  | [] => None
  | d :: rest =>
      if String.eqb (api_name d) name then Some d else get_api_by_name_in rest name
  end.

Definition get_api_by_name (self : t) (name : string) : option APIDocEntry :=
  get_api_by_name_in (api_docs self) name.

Definition get_apis_by_library (self : t) (lib : string) : list APIDocEntry :=
  filter (fun d => library d = lib) (api_docs self).

Definition get_related_apis (self : t) (name : string) : list APIDocEntry :=
  match get_api_by_name self name with
  | None => []
  | Some d =>
      foldl (fun related related_name =>
               match get_api_by_name self related_name with
               | Some related_api => related ++ [related_api]
               | None => related
               end)
            [] (related_apis d)
  end.

(** The default arguments of the entry point used by the agent. *)
Definition search_by_description_and_keywords (self : t) (description : string)
    : t * result (list APIDocEntry) :=
  let '(self, r) :=
    search_apis self description 10
      (binary_normalize f64_prec f64_emax 7205759403792794 (-55) false) in
  (self, match r with
         | Return results => Return (api_doc <$> results)
         | Raise e => Raise e
         end).

(** [get_statistics]: the returned dict, one field per key. *)
Record Statistics : Type := Build_Statistics {
  total_apis : Z;
  libraries : gmap string Z;
  embedding_model_loaded : bool;
  cache_size : Z
}.

(** The loop of [get_statistics] over the documents. *)
Definition count_libraries (docs : list APIDocEntry) : gmap string Z :=
  foldl (fun libs api_doc =>
           let lib := library api_doc in
           let libs := match libs !! lib with
                       | None => <[lib := 0%Z]> libs
                       | Some _ => libs
                       end in
           alter (fun n => (n + 1)%Z) lib libs)
        ∅ docs.

Definition get_statistics (self : t) : Statistics :=
  Build_Statistics
    (Z.of_nat (length (api_docs self)))
    (count_libraries (api_docs self))
    (bool_decide (embedding_model self <> None))
    (Z.of_nat (size (EmbeddingCache.cache (embedding_cache self)))).

End Manager.

Arguments APIDocEntry : clear implicits.
Arguments SearchResult : clear implicits.
Arguments t : clear implicits.

End RAGManager.

(** ** Vocabulary of the properties

    [Fusion] names the two orders in which a candidate list can be
    deduplicated and filtered; [Durable] names what of the cache is on
    disk. *)

Module Fusion.
Import Py RAGManager.

Section Fusion.
Context {ndarray Model : Type} {L : Libs ndarray Model}.
Local Abbreviation APIDocEntry := (RAGManager.APIDocEntry ndarray).
Local Abbreviation SearchResult := (RAGManager.SearchResult ndarray).
Local Abbreviation t := (RAGManager.t ndarray Model).


Definition name (r : SearchResult) : string := api_name (api_doc r).

(** [score >= min_similarity] *)
Definition passes (min_similarity : float) (r : SearchResult) : bool :=
  float_ge (similarity_score r) min_similarity.

(** The entries of [l] whose identifier is neither in [seen] nor carried
    by an earlier entry of [l]. *)
Fixpoint first_seen (seen : gset string) (l : list SearchResult) : list SearchResult :=
  match l with
  | [] => []
  | r :: rest =>
      if bool_decide (name r ∈ seen) then first_seen seen rest
      else r :: first_seen ({[name r]} ∪ seen) rest
  end.


(** Fusion in the other order: filter, then deduplicate. *)
Definition filter_then_dedup (min_similarity : float) (l : list SearchResult)
    : list SearchResult :=
  first_seen ∅ (filter (fun r : SearchResult => passes min_similarity r) l).


(** What [search_apis] returns from the concatenated candidates. *)
Definition fused (min_similarity : float) (top_k : Z) (results : list SearchResult)
    : list SearchResult :=
  slice_to (sort_desc similarity_score (unique_loop min_similarity results ∅ [])) top_k.


(** "With the provider unavailable, a query that matches a document via
    keyword or context still gets a non-empty result list." *)
Definition degrades_to_nonempty (self : t) (query : string) (top_k : Z)
    (min_similarity : float) : Prop :=
  embedding_model self = None ->
  (forall m, SentenceTransformer <> Return m) ->
  forall kw ctx,
    _keyword_search self query top_k = Return kw ->
    _context_search self query top_k = Return ctx ->
    kw ++ ctx <> [] ->
    exists l, (search_apis self query top_k min_similarity).2 = Return l /\ l <> [].

(** The candidate the semantic loop forms for a document that has an
    embedding [e]; nothing when [np_dot] raises. *)
Definition cosine_candidate (query_embedding : ndarray) (d : APIDocEntry)
    : option SearchResult :=
  e ← embedding d;
  match np_dot query_embedding e with
  | Return dot =>
      Some (Build_SearchResult d
              (to_float (np_div dot (np_mul (np_linalg_norm query_embedding)
                                            (np_linalg_norm e))))
              "semantic")
  | Raise _ => None
  end.

(** [np_dot] accepts the shapes of the query and of every stored
    embedding. *)
Definition shapes_agree (query_embedding : ndarray) (docs : list APIDocEntry) : bool :=
  forallb (fun d => match embedding d with
                    | Some e => match np_dot query_embedding e with
                                | Return _ => true
                                | Raise _ => false
                                end
                    | None => true
                    end) docs.

End Fusion.
End Fusion.

Module Durable.
Import Py.

Section Durable.
Context {ndarray : Type}.
Local Abbreviation t := (EmbeddingCache.t ndarray).

(** The mapping stored in the cache file, empty when the file is missing
    or does not parse. *)
Definition on_disk (c : t) : gmap string ndarray :=
  match EmbeddingCache.cache_file c with
  | Some (Return d) => d
  | _ => ∅
  end.

(** The keys stored in the cache file. *)
Definition durable_keys (c : t) : gset string :=
  match EmbeddingCache.cache_file c with
  | Some (Return d) => dom d
  | _ => ∅
  end.

(** The keys of the in-memory mapping that the cache file lacks. *)
Definition unpersisted (c : t) : gset string :=
  dom (EmbeddingCache.cache c) ∖ durable_keys c.

(** The keys missing from the file do not outnumber the remainder of
    the size of the mapping modulo 10. *)
Definition within_batch (c : t) : Prop :=
  size (unpersisted c) <= size (EmbeddingCache.cache c) mod 10.

(** A run of [set] calls. *)
Definition set_many (c : t) (calls : list (string * ndarray))
    : t :=
  foldl (fun c tv => EmbeddingCache.set c tv.1 tv.2) c calls.

End Durable.
End Durable.

Module Lifecycle.
Import Py.

Section Lifecycle.
Context {ndarray : Type}.

(** A new [EmbeddingCache] on the cache directory that [c] leaves
    behind: what the next process starts from. *)
Definition restart (c : EmbeddingCache.t ndarray) : EmbeddingCache.t ndarray :=
  EmbeddingCache._load_cache (EmbeddingCache.cache_file c) (EmbeddingCache.metadata_file c).

(** Neither file of the cache directory is unreadable. *)
Definition files_parse (c : EmbeddingCache.t ndarray) : bool :=
  match EmbeddingCache.cache_file c, EmbeddingCache.metadata_file c with
  | Some (Raise _), _ | _, Some (Raise _) => false
  | _, _ => true
  end.

(** The text of a document that is embedded. *)
Definition combined_text (d : RAGManager.APIDocEntry ndarray) : string :=
  RAGManager.api_name d +:+ " " +:+ RAGManager.description d +:+ " "
    +:+ RAGManager.usage_context d.

(** The entries that [load_knowledge_base] reads from the files, in
    order: those of every file that parses, up to its first bad entry. *)
Fixpoint good_prefix (apis : list (result (RAGManager.APIDocEntry ndarray)))
    : list (RAGManager.APIDocEntry ndarray) :=
  match apis with
  | Return d :: rest => d :: good_prefix rest
  | _ => []
  end.

Definition entries_read
    (json_files : list (result (list (result (RAGManager.APIDocEntry ndarray)))))
    : list (RAGManager.APIDocEntry ndarray) :=
  mjoin ((fun f => match f with
                   | Return apis => good_prefix apis
                   | Raise _ => []
                   end) <$> json_files).

(** What [_precompute_embeddings] does to a document [d], giving [d']:
    [d'] either keeps the embedding of [d] or carries the vector that the
    cache [after] holds for its text; and a text that the cache [before]
    held gives the vector cached then. *)
Definition coherent (before after : EmbeddingCache.t ndarray)
    (d d' : RAGManager.APIDocEntry ndarray) : Prop :=
  (RAGManager.embedding d' = RAGManager.embedding d
   \/ exists e, RAGManager.embedding d' = Some e
        /\ EmbeddingCache.get after (combined_text d') = Some e)
  /\ (forall e, EmbeddingCache.get before (combined_text d) = Some e ->
       RAGManager.embedding d' = Some e).

End Lifecycle.
End Lifecycle.

Module Candidates.
Import Py RAGManager.

Section Candidates.
Context {ndarray : Type}.
Local Abbreviation APIDocEntry := (RAGManager.APIDocEntry ndarray).
Local Abbreviation SearchResult := (RAGManager.SearchResult ndarray).

(** [a] and [b] are one document, up to the embedding. *)
Definition same_entry (a b : APIDocEntry) : Prop :=
  set_embedding a None = set_embedding b None.

(** The text the keyword strategy searches in. *)
Definition search_text (d : APIDocEntry) : string :=
  lower (api_name d +:+ " " +:+ description d +:+ " " +:+ signature d).

(** The number of the words [ws] that occur in [text]. *)
Definition occurrences (ws : list string) (text : string) : nat :=
  length (filter (fun w => contains w text) ws).

(** The candidate of the keyword loop for a document, if any. *)
Definition keyword_candidate (query_words : gset string) (d : APIDocEntry)
    : option SearchResult :=
  let matches := keyword_matches query_words (search_text d) (lower (api_name d)) in
  if (0 <? matches)%Z then
    Some (Build_SearchResult d
            (float_div (int_as_binary matches)
                       (int_as_binary (Z.of_nat (size query_words))))
            "keyword")
  else None.

(** The candidate of the context loop for a document, if any. *)
Definition context_candidate (query_lower : string) (d : APIDocEntry)
    : option SearchResult :=
  let context_text := lower (usage_context d) in
  if contains query_lower context_text
     || existsb (fun word => contains word context_text) (split query_lower)
  then
    let common : gset string :=
      list_to_set (split query_lower) ∩ list_to_set (split context_text) in
    Some (Build_SearchResult d
            (float_div (int_as_binary (Z.of_nat (size common)))
                       (int_as_binary (Z.of_nat (length (split query_lower)))))
            "context")
  else None.

End Candidates.
End Candidates.

(** ** A concrete instance of the libraries, for running the model

    Arrays are lists of binary32 numbers, [np_dot] accumulates from left
    to right, a model is a finite table from texts to vectors whose
    [encode] raises on a text outside the table, and the sort is the one
    of CPython 3.11 on short lists. *)

Module ListLibs.
Import Py.

Abbreviation array := (list float).
Abbreviation model := (list (string * list float)).

Definition f32_prec : Z := 24.
Definition f32_emax : Z := 128.

Definition dot (x y : list float) : result float :=
  if (length x =? length y)%nat then
    Return (foldl (fun acc ab => SFadd f32_prec f32_emax acc
                                   (SFmul f32_prec f32_emax ab.1 ab.2))
                  (S754_zero false) (zip x y))
  else Raise ValueError.

Definition norm (x : list float) : float :=
  SFsqrt f32_prec f32_emax
    (foldl (fun acc a => SFadd f32_prec f32_emax acc (SFmul f32_prec f32_emax a a))
           (S754_zero false) x).

Fixpoint lookup_text (table : list (string * list float)) (text : string)
    : result (list float) :=
  match table with
  | [] => Raise RuntimeError
  | (t, v) :: table' => if String.eqb t text then Return v else lookup_text table' text
  end.

(** The steps of CPython 3.11 on a list of fewer than 64 elements with
    [reverse=True]: the list is reversed, its initial run is found (and
    reversed when it is strictly descending), the other elements are put
    in place by binary insertion, and the result is reversed.  The
    elements are the keys with their positions.  (From 64 elements on
    CPython merges runs; this instance goes on inserting.) *)
Definition key_lt (x y : float * nat) : bool := float_lt x.1 y.1.

Fixpoint run_length (descending : bool) (prev : float * nat) (l : list (float * nat))
    : nat :=
  match l with
  | [] => 0
  | x :: l' =>
      if Bool.eqb (key_lt x prev) descending then S (run_length descending x l') else 0
  end.

Definition count_run (a : list (float * nat)) : nat * bool :=
  match a with
  | x0 :: x1 :: rest =>
      let descending := key_lt x1 x0 in
      (2 + run_length descending x1 rest, descending)%nat
  | _ => (length a, false)
  end.

Fixpoint bisect (fuel : nat) (sorted : list (float * nat)) (pivot : float * nat)
    (l r : nat) : nat :=
  match fuel with
  | O => l
  | S fuel' =>
      if (l <? r)%nat then
        let p := (l + (r - l) / 2)%nat in
        match sorted !! p with
        | Some y =>
            if key_lt pivot y then bisect fuel' sorted pivot l p
            else bisect fuel' sorted pivot (S p) r
        | None => l
        end
      else l
  end.

Definition binary_insert (sorted : list (float * nat)) (pivot : float * nat)
    : list (float * nat) :=
  let l := bisect (length sorted) sorted pivot 0 (length sorted) in
  take l sorted ++ pivot :: drop l sorted.

Definition cpython_order (keys : list float) : list nat :=
  let a := rev (zip keys (seq 0 (length keys))) in
  let '(n, descending) := count_run a in
  let run := if descending then rev (take n a) else take n a in
  rev (foldl binary_insert run (drop n a)).*2.

Definition libs (load : result model) : Libs array model :=
  {| np_prec := f32_prec;
     np_emax := f32_emax;
     np_dot := dot;
     np_linalg_norm := norm;
     SentenceTransformer := load;
     encode := lookup_text;
     sort_order := cpython_order |}.

(** The binary32 number [z]. *)
Definition f32 (z : Z) : float := binary_normalize f32_prec f32_emax z 0 false.

(** The binary64 number [m * 2^e]. *)
Definition f64 (m e : Z) : float := binary_normalize f64_prec f64_emax m e false.

End ListLibs.

(** ** A small knowledge base, for running the model *)

Module Demo.
Import Py ListLibs.
Local Open Scope string_scope.

Definition estimator_run : RAGManager.APIDocEntry array :=
  RAGManager.Build_APIDocEntry "estimator_run" "qiskit" "run(circuits, observables)"
    "run estimator primitive for expectation values" [] "" ""
    "used to compute expectation values of observables"
    ["sampler_run"; "missing_api"] "" None.

Definition sampler_run : RAGManager.APIDocEntry array :=
  RAGManager.Build_APIDocEntry "sampler_run" "qiskit" "run(circuits)"
    "run sampler primitive" [] "" "" "used to sample bitstrings" [] "" None.

Definition backend_run : RAGManager.APIDocEntry array :=
  RAGManager.Build_APIDocEntry "backend_run" "qiskit" "run(circuits)"
    "submit circuits to a backend" [] "" "" "used to execute jobs" [] "" None.

Definition transpile : RAGManager.APIDocEntry array :=
  RAGManager.Build_APIDocEntry "transpile" "qiskit" "transpile(circuits)"
    "rewrite circuits for a target" [] "" "" "used before execution" [] "" None.

Definition corpus : list (RAGManager.APIDocEntry array) :=
  [estimator_run; sampler_run; backend_run].

(** A manager as [__init__] leaves it, on an empty cache directory. *)
Definition fresh : RAGManager.t array model :=
  RAGManager.Build [] None (EmbeddingCache._load_cache None None).

(** A model that knows the combined texts of the four documents (that
    of [sampler_run] as the zero vector) and three query strings. *)
Definition table : model :=
  [("estimator_run run estimator primitive for expectation values used to compute expectation values of observables",
    [f32 1; f32 0]);
   ("backend_run submit circuits to a backend used to execute jobs",
    [f32 1; f32 1]);
   ("sampler_run run sampler primitive used to sample bitstrings",
    [f32 0; f32 0]);
   ("estimator", [f32 0; f32 1]);
   ("sampler", [f32 0; f32 1]);
   ("transpile rewrite circuits for a target used before execution",
    [f32 0; f32 1]);
   ("measure", [f32 0; f32 1])].

(** The libraries with the model available, and with a model that fails
    to load. *)
Definition up : Libs array model := libs (Return table).
Definition down : Libs array model := libs (Raise RuntimeError).

(** The manager after [load_knowledge_base]. *)
Definition loaded : RAGManager.t array model :=
  RAGManager.load_knowledge_base (L := up) fresh
    [Return [Return estimator_run; Return backend_run]].

Definition loaded_zero : RAGManager.t array model :=
  RAGManager.load_knowledge_base (L := up) fresh [Return [Return sampler_run]].

Definition degraded : RAGManager.t array model :=
  RAGManager.load_knowledge_base (L := down) fresh [Return (Return <$> corpus)].

(** Four documents whose cosine scores for the query ["measure"] are
    [0.0], NaN, [0.707..] and [1.0], in load order. *)
Definition loaded_four : RAGManager.t array model :=
  RAGManager.load_knowledge_base (L := up) fresh
    [Return [Return estimator_run; Return sampler_run; Return backend_run;
             Return transpile]].

(** The float literal [0.3]. *)
Definition f0_3 : float := f64 5404319552844595 (-54).

(** What a test would print of a result. *)
Definition show (r : RAGManager.SearchResult array) : string * float * string :=
  (RAGManager.api_name (RAGManager.api_doc r), RAGManager.similarity_score r,
   RAGManager.match_type r).

Definition show_all (r : result (list (RAGManager.SearchResult array)))
    : result (list (string * float * string)) :=
  match r with
  | Return l => Return (show <$> l)
  | Raise e => Raise e
  end.

Definition kw_estimator :=
  Eval vm_compute in
    match RAGManager._keyword_search loaded "estimator" 5 with
    | Return l => l
    | Raise _ => []
    end.

(** The keyword and context candidates of [degraded] for a query of
    four tokens, one of which occurs in [estimator_run]. *)
Definition kw_sparse :=
  Eval vm_compute in
    match RAGManager._keyword_search degraded "expectation zzz qqq xxx" 5 with
    | Return l => l
    | Raise _ => []
    end.
Definition ctx_sparse :=
  Eval vm_compute in
    match RAGManager._context_search degraded "expectation zzz qqq xxx" 5 with
    | Return l => l
    | Raise _ => []
    end.

(** Eleven texts, and the calls [set(t, v)] for each of them in turn. *)
Definition texts : list string :=
  ["t01"; "t02"; "t03"; "t04"; "t05"; "t06"; "t07"; "t08"; "t09"; "t10"; "t11"].

Definition set_all (v : array) (c : EmbeddingCache.t array) : EmbeddingCache.t array :=
  foldl (fun c t => EmbeddingCache.set c t v) c texts.

End Demo.

(** * Properties *)

(** ** Order of floats, sorting and slicing *)

Module PyFacts.
Import Py.

Lemma SFcompare_antisym (x y : float) c :
  SFcompare x y = Some c -> SFcompare y x = Some (CompOpp c).
Proof.
  destruct x as [[]|[]| |[] mx ex], y as [[]|[]| |[] my ey]; simpl;
    intros [= <-]; try reflexivity; f_equal;
    rewrite (Z.compare_antisym ex ey);
    change (Pos.compare_cont Eq) with Pos.compare;
    rewrite (Pos.compare_antisym mx my);
    destruct (ex ?= ey)%Z; simpl; try reflexivity;
    destruct (mx ?= my)%positive; reflexivity.
Qed.

Lemma float_ge_not_nan (x y : float) :
  float_ge x y = true -> is_nan x = false /\ is_nan y = false.
Proof.
  unfold float_ge, SFleb. destruct x, y; simpl; try discriminate; auto.
Qed.

Lemma SFcompare_not_nan (x y : float) :
  is_nan x = false -> is_nan y = false -> exists c, SFcompare x y = Some c.
Proof.
  destruct x, y; simpl; try discriminate; eauto.
Qed.

Lemma float_lt_false_ge (x y : float) :
  is_nan x = false -> is_nan y = false ->
  float_lt x y = false -> float_ge x y = true.
Proof.
  intros Hx Hy. unfold float_lt, float_ge, SFltb, SFleb.
  destruct (SFcompare_not_nan x y Hx Hy) as [c Hc].
  rewrite Hc, (SFcompare_antisym _ _ _ Hc). destruct c; simpl; congruence.
Qed.

Lemma SFleb_trans (x y z : float) :
  SFleb x y = true -> SFleb y z = true -> SFleb x z = true.
Proof.
  unfold SFleb.
  destruct x as [[]|[]| |[] mx ex], y as [[]|[]| |[] my ey],
           z as [[]|[]| |[] mz ez]; simpl; try (intros; congruence);
    change (Pos.compare_cont Eq) with Pos.compare;
    destruct (Z.compare_spec ex ey), (Z.compare_spec ey ez), (Z.compare_spec ex ez);
    simpl; try (intros; congruence); try lia; subst;
    destruct (Pos.compare_spec mx my), (Pos.compare_spec my mz), (Pos.compare_spec mx mz);
    simpl; try (intros; congruence); lia.
Qed.

Lemma float_ge_trans (x y z : float) :
  float_ge x y = true -> float_ge y z = true -> float_ge x z = true.
Proof. unfold float_ge. intros Hxy Hyz. exact (SFleb_trans z y x Hyz Hxy). Qed.

Lemma float_lt_ge (x y : float) : float_lt x y = true -> float_ge y x = true.
Proof. unfold float_lt, float_ge, SFltb, SFleb. destruct (SFcompare x y) as [[]|]; congruence. Qed.

Section SortFacts.
Context {A : Type} (key : A -> float).
Local Abbreviation descending := (Py.descending key).

Lemma insert_desc_perm x l : insert_desc key x l ≡ₚ x :: l.
Proof.
  induction l as [|y l IH]; simpl; [done|].
  destruct (float_lt (key x) (key y)); [|done].
  rewrite IH. apply perm_swap.
Qed.

Lemma sort_desc_perm l : sort_desc key l ≡ₚ l.
Proof.
  induction l as [|x l IH]; simpl; [done|].
  rewrite insert_desc_perm. by f_equiv.
Qed.

Lemma insert_desc_descending x l :
  is_nan (key x) = false -> Forall (fun a => is_nan (key a) = false) l ->
  descending l -> descending (insert_desc key x l).
Proof.
  intros Hx Hl Hs. induction Hs as [|y l Hs IH Hy]; simpl.
  - repeat constructor.
  - apply Forall_cons in Hl as [Hny Hl].
    destruct (float_lt (key x) (key y)) eqn:Hlt.
    + constructor; [by apply IH|].
      rewrite (insert_desc_perm x l). constructor; [by apply float_lt_ge | done].
    + assert (Hge : float_ge (key x) (key y) = true) by by apply float_lt_false_ge.
      constructor; [by constructor|].
      constructor; [done|].
      eapply Forall_impl; [exact Hy|]. intros z Hz. by eapply float_ge_trans.
Qed.

Lemma sort_desc_descending l :
  Forall (fun a => is_nan (key a) = false) l -> descending (sort_desc key l).
Proof.
  induction 1 as [|x l Hx Hl IH]; simpl; [constructor|].
  apply insert_desc_descending; [done| |done].
  by rewrite sort_desc_perm.
Qed.

Lemma descending_take n l : descending l -> descending (take n l).
Proof.
  intros Hs. revert n. induction Hs as [|x l Hs IH Hx]; intros [|n]; simpl; try constructor.
  - apply IH.
  - by apply Forall_take.
Qed.

Lemma descending_lookup l i j a b :
  descending l -> (i < j)%nat -> l !! i = Some a -> l !! j = Some b ->
  float_ge (key a) (key b) = true.
Proof.
  intros Hs. revert i j. induction Hs as [|x l Hs IH Hx]; intros i j Hij Hi Hj; [done|].
  destruct j as [|j]; [lia|]. destruct i as [|i]; simpl in *.
  - injection Hi as <-. rewrite Forall_forall in Hx. apply Hx.
    by eapply list_elem_of_lookup_2.
  - eapply (IH i j); [lia|done..].
Qed.
End SortFacts.

Section ArrangeFacts.
Context {A : Type}.
Implicit Types (l : list A) (order : list nat).

Lemma insert_rank_perm (x : nat * A) (l : list (nat * A)) : insert_rank x l ≡ₚ x :: l.
Proof.
  induction l as [|y l IH]; simpl; [done|].
  destruct (y.1 <? x.1)%nat; [|done].
  rewrite IH. apply perm_swap.
Qed.

Lemma ranked_snd order i l : (ranked order i l).*2 = l.
Proof. revert i. induction l as [|x l IH]; intros i; simpl; [done|]. by rewrite IH. Qed.

Lemma arrange_perm order l : arrange order l ≡ₚ l.
Proof.
  unfold arrange. rewrite <- (ranked_snd order 0 l) at 2. apply fmap_Permutation.
  induction (ranked order 0 l) as [|x r IH]; simpl; [done|].
  by rewrite insert_rank_perm, IH.
Qed.

Lemma list_sort_reverse_perm (order : list float -> list nat) (key : A -> float) l :
  list_sort_reverse order key l ≡ₚ l.
Proof.
  unfold list_sort_reverse. destruct (forallb _ l).
  - apply sort_desc_perm.
  - apply arrange_perm.
Qed.

(** [arrange] takes the elements in the listed order of positions. *)
Lemma arrange_example (a b c d : A) :
  arrange [1; 3; 2; 0]%nat [a; b; c; d] = [b; d; c; a]
  /\ arrange [2; 2; 7]%nat [a; b; c; d] = [c; a; b; d].
Proof. split; reflexivity. Qed.

(** On keys without NaN the sort is the stable descending one, whatever
    [order] is. *)
Lemma list_sort_reverse_no_nan (order : list float -> list nat) (key : A -> float) l :
  Forall (fun x => is_nan (key x) = false) l ->
  list_sort_reverse order key l = sort_desc key l.
Proof.
  intros Hl. unfold list_sort_reverse.
  assert (Hall : forallb (fun x => negb (is_nan (key x))) l = true).
  { apply forallb_forall. intros x Hx%list_elem_of_In.
    rewrite Forall_forall in Hl. by rewrite (Hl x Hx). }
  by rewrite Hall.
Qed.

End ArrangeFacts.

Lemma slice_to_take {A} (l : list A) k : exists n, slice_to l k = take n l.
Proof. unfold slice_to. destruct (0 <=? k)%Z; eauto. Qed.

Lemma slice_to_length {A} (l : list A) k :
  (0 <= k)%Z -> (Z.of_nat (length (slice_to l k)) <= k)%Z.
Proof.
  intros Hk. unfold slice_to. destruct (Z.leb_spec 0 k); [|lia].
  rewrite length_take. lia.
Qed.

Lemma slice_to_negative {A} (l : list A) k :
  (k < 0)%Z -> slice_to l k = take (length l - Z.to_nat (- k)) l.
Proof. intros Hk. unfold slice_to. destruct (Z.leb_spec 0 k); [lia|done]. Qed.

End PyFacts.

(** ** Fusion: the deduplication loop and what is returned from it *)

Module FusionFacts.
Import Py PyFacts RAGManager Fusion.

Section Facts.
Context {ndarray Model : Type} {L : Libs ndarray Model}.
Local Abbreviation APIDocEntry := (RAGManager.APIDocEntry ndarray).
Local Abbreviation SearchResult := (RAGManager.SearchResult ndarray).
Local Abbreviation t := (RAGManager.t ndarray Model).
Implicit Types (self : t) (d : APIDocEntry) (docs : list APIDocEntry).
Implicit Types (r : SearchResult) (results rs l unique : list SearchResult).
Implicit Types (m : float) (top_k k : Z) (query : string) (seen : gset string).


Lemma unique_loop_first_seen m results seen unique :
  unique_loop m results seen unique
  = unique ++ first_seen seen (filter (fun r : SearchResult => passes m r) results).
Proof.
  revert seen unique. induction results as [|r rest IH]; intros seen unique; simpl.
  - by rewrite app_nil_r.
  - rewrite filter_cons. fold (name r). fold (passes m r).
    destruct (passes m r) eqn:Hp; simpl.
    + destruct (decide (name r ∈ seen)) as [Hin|Hin].
      * rewrite (bool_decide_eq_false_2 (name r ∉ seen)) by tauto.
        rewrite (bool_decide_eq_true_2 _ Hin). simpl. apply IH.
      * rewrite (bool_decide_eq_true_2 (name r ∉ seen)) by done.
        rewrite (bool_decide_eq_false_2 _ Hin). simpl.
        rewrite IH. by rewrite <- app_assoc.
    + rewrite andb_false_r. apply IH.
Qed.

Lemma unique_loop_filter_then_dedup m results :
  unique_loop m results ∅ [] = filter_then_dedup m results.
Proof. by rewrite unique_loop_first_seen. Qed.

Lemma first_seen_elem seen l r :
  r ∈ first_seen seen l -> r ∈ l /\ name r ∉ seen.
Proof.
  revert seen. induction l as [|x l IH]; intros seen; simpl; [by intros ?%elem_of_nil|].
  case_bool_decide as Hx.
  - intros Hr. destruct (IH _ Hr) as [? ?]. split; [by right|done].
  - intros Hr. apply elem_of_cons in Hr as [->|Hr].
    + split; [left|done].
    + destruct (IH _ Hr) as [Hl Hs]. split; [by right|].
      intros Hin. apply Hs, elem_of_union. by right.
Qed.

Lemma first_seen_NoDup seen l : NoDup (name <$> first_seen seen l).
Proof.
  revert seen. induction l as [|x l IH]; intros seen; simpl; [constructor|].
  case_bool_decide as Hx; [apply IH|].
  rewrite fmap_cons. constructor; [|apply IH].
  intros (r & Hn & Hr)%list_elem_of_fmap. apply first_seen_elem in Hr as [_ Hr].
  set_solver.
Qed.


Lemma first_seen_nonempty seen l r :
  r ∈ l -> name r ∉ seen -> first_seen seen l <> [].
Proof.
  revert seen. induction l as [|x l IH]; intros seen; simpl; [by intros ?%elem_of_nil|].
  intros [->|Hr]%elem_of_cons Hn.
  - by rewrite bool_decide_eq_false_2.
  - case_bool_decide; [by apply IH|done].
Qed.

Lemma filter_then_dedup_passes m l r :
  r ∈ filter_then_dedup m l -> passes m r = true.
Proof.
  intros [Hr _]%first_seen_elem. apply list_elem_of_filter in Hr as [Hp _].
  by apply Is_true_true.
Qed.

Lemma fused_elem m k rs r : r ∈ fused m k rs -> r ∈ filter_then_dedup m rs.
Proof.
  unfold fused. destruct (slice_to_take (sort_desc similarity_score (unique_loop m rs ∅ [])) k) as [n ->].
  intros Hr%(subseteq_take n).
  by rewrite sort_desc_perm, unique_loop_filter_then_dedup in Hr.
Qed.

Lemma fused_contract m k rs :
  (0 <= k)%Z ->
  (Z.of_nat (length (fused m k rs)) <= k)%Z
  /\ (forall i j a b, (i < j)%nat -> fused m k rs !! i = Some a -> fused m k rs !! j = Some b ->
        float_ge (similarity_score a) (similarity_score b) = true)
  /\ (forall r, r ∈ fused m k rs -> float_ge (similarity_score r) m = true)
  /\ NoDup (name <$> fused m k rs).
Proof.
  intros Hk. split; [by apply slice_to_length|].
  split; [|split].
  - intros i j a b. apply descending_lookup.
    unfold fused. destruct (slice_to_take (sort_desc similarity_score (unique_loop m rs ∅ [])) k) as [n ->].
    apply descending_take, sort_desc_descending.
    rewrite unique_loop_filter_then_dedup. apply Forall_forall. intros r Hr.
    apply filter_then_dedup_passes in Hr. by apply float_ge_not_nan in Hr as [? _].
  - intros r Hr%fused_elem. by apply filter_then_dedup_passes in Hr.
  - unfold fused. destruct (slice_to_take (sort_desc similarity_score (unique_loop m rs ∅ [])) k) as [n ->].
    rewrite fmap_take. eapply sublist_NoDup; [|apply sublist_take].
    rewrite sort_desc_perm, unique_loop_filter_then_dedup. apply first_seen_NoDup.
Qed.

End Facts.
End FusionFacts.

(** ** The strategies: outcomes and frame *)

Module SearchFacts.
Import Py PyFacts RAGManager Fusion FusionFacts.

Section Facts.
Context {ndarray Model : Type} {L : Libs ndarray Model}.
Local Abbreviation APIDocEntry := (RAGManager.APIDocEntry ndarray).
Local Abbreviation SearchResult := (RAGManager.SearchResult ndarray).
Local Abbreviation t := (RAGManager.t ndarray Model).
Implicit Types (self : t) (d : APIDocEntry) (docs : list APIDocEntry).
Implicit Types (r : SearchResult) (results rs l unique : list SearchResult).
Implicit Types (m : float) (top_k k : Z) (query : string) (seen : gset string).


Lemma init_model_frame self :
  api_docs (_init_embedding_model self) = api_docs self
  /\ embedding_cache (_init_embedding_model self) = embedding_cache self.
Proof.
  unfold _init_embedding_model.
  destruct (embedding_model self); [done|]. by destruct SentenceTransformer.
Qed.

Lemma semantic_search_frame self query top_k :
  api_docs (_semantic_search self query top_k).1 = api_docs self
  /\ embedding_cache (_semantic_search self query top_k).1 = embedding_cache self.
Proof.
  unfold _semantic_search.
  destruct (embedding_model (_init_embedding_model self)); simpl;
    [|apply init_model_frame].
  match goal with |- context [match ?a with Return _ => _ | Raise _ => _ end] =>
    destruct a end; apply init_model_frame.
Qed.

Lemma keyword_matches_empty search_text name_lower :
  keyword_matches ∅ search_text name_lower = 0%Z.
Proof. unfold keyword_matches. by rewrite elements_empty. Qed.

Lemma keyword_loop_returns query_words docs results :
  exists out, keyword_loop query_words docs results = Return out.
Proof.
  revert results. induction docs as [|d docs IH]; intros results; simpl; [eauto|].
  destruct (Z.ltb_spec 0 (keyword_matches query_words
     (lower (api_name d +:+ " " +:+ description d +:+ " " +:+ signature d))
     (lower (api_name d)))) as [Hpos|Hle]; [|apply IH].
  unfold int_truediv.
  destruct (Z.eqb_spec (Z.of_nat (size query_words)) 0) as [Hz|Hnz]; [|apply IH].
  assert (query_words = ∅) as ->.
  { apply leibniz_equiv, size_empty_inv. lia. }
  rewrite keyword_matches_empty in Hpos. lia.
Qed.

Lemma keyword_loop_empty docs results :
  keyword_loop ∅ docs results = Return results.
Proof.
  revert results. induction docs as [|d docs IH]; intros results; simpl; [done|].
  rewrite keyword_matches_empty. simpl. apply IH.
Qed.

Lemma keyword_search_returns self query top_k :
  exists kw, _keyword_search self query top_k = Return kw.
Proof.
  unfold _keyword_search.
  destruct (keyword_loop_returns (list_to_set (split (lower query))) (api_docs self) [])
    as [out ->]. simpl. eauto.
Qed.

Lemma keyword_search_docs self self' query top_k :
  api_docs self' = api_docs self ->
  _keyword_search self' query top_k = _keyword_search self query top_k.
Proof. unfold _keyword_search. by intros ->. Qed.

Lemma context_search_docs self self' query top_k :
  api_docs self' = api_docs self ->
  _context_search self' query top_k = _context_search self query top_k.
Proof. unfold _context_search. by intros ->. Qed.

Lemma context_loop_returns query_lower docs results :
  split query_lower <> [] ->
  exists out, context_loop query_lower docs results = Return out.
Proof.
  intros Hq. revert results. induction docs as [|d docs IH]; intros results; simpl; [eauto|].
  destruct (_ || _); [|apply IH].
  unfold int_truediv.
  destruct (Z.eqb_spec (Z.of_nat (length (split query_lower))) 0) as [Hz|Hnz]; [|apply IH].
  destruct (split query_lower); [done|simpl in Hz; lia].
Qed.

Lemma context_search_returns self query top_k :
  split (lower query) <> [] ->
  exists ctx, _context_search self query top_k = Return ctx.
Proof.
  intros Hq. unfold _context_search.
  destruct (context_loop_returns (lower query) (api_docs self) [] Hq) as [out ->].
  simpl. eauto.
Qed.

Lemma context_loop_raises query_lower docs results :
  split query_lower = [] ->
  Exists (fun d => contains query_lower (lower (usage_context d)) = true) docs ->
  context_loop query_lower docs results = Raise ZeroDivisionError.
Proof.
  intros Hq Hex. revert results.
  induction Hex as [d docs Hd|d docs Hex IH]; intros results; simpl.
  - rewrite Hd, Hq. reflexivity.
  - rewrite Hq. simpl. destruct (contains _ _); simpl; [reflexivity|apply IH].
Qed.

(** [search_apis] on a loaded corpus, by the outcome of its strategies. *)
Lemma search_apis_unfold self query top_k m :
  api_docs self <> [] ->
  (search_apis self query top_k m).2 =
    (kw ← _keyword_search self query top_k;
     ctx ← _context_search self query top_k;
     Return (fused m top_k ((_semantic_search self query (top_k * 2)).2 ++ kw ++ ctx))).
Proof.
  intros Hdocs. unfold search_apis. destruct (api_docs self) eqn:Hd; [done|].
  pose proof (semantic_search_frame self query (top_k * 2)) as [Hf _].
  destruct (_semantic_search self query (top_k * 2)) as [self' sem]. simpl in *.
  rewrite (keyword_search_docs self self'), (context_search_docs self self') by done.
  reflexivity.
Qed.

Lemma slice_to_nil {A} k : slice_to (@nil A) k = [].
Proof. unfold slice_to. destruct (0 <=? k)%Z; apply take_nil. Qed.

Lemma semantic_search_empty self query top_k :
  api_docs self = [] -> (_semantic_search self query top_k).2 = [].
Proof.
  intros Hd. unfold _semantic_search.
  pose proof (init_model_frame self) as [Hf _]. rewrite Hd in Hf.
  destruct (embedding_model (_init_embedding_model self)); [|done].
  rewrite Hf. destruct (encode _ _); simpl; [|done]. apply slice_to_nil.
Qed.

Lemma semantic_search_unavailable self query top_k :
  embedding_model self = None -> (forall mdl, SentenceTransformer <> Return mdl) ->
  (_semantic_search self query top_k).2 = [].
Proof.
  intros Hm Hload. unfold _semantic_search, _init_embedding_model. rewrite Hm.
  destruct SentenceTransformer as [mdl|e] eqn:Hl; [by destruct (Hload mdl)|done].
Qed.

Lemma fused_nil m k : fused m k ([] : list SearchResult) = [].
Proof. apply slice_to_nil. Qed.

Lemma search_apis_fused self query top_k m :
  (search_apis self query top_k m).2 =
    (kw ← _keyword_search self query top_k;
     ctx ← _context_search self query top_k;
     Return (fused m top_k ((_semantic_search self query (top_k * 2)).2 ++ kw ++ ctx))).
Proof.
  destruct (api_docs self) eqn:Hd; [|apply search_apis_unfold; congruence].
  rewrite (semantic_search_empty _ _ _ Hd).
  unfold search_apis, _keyword_search, _context_search. rewrite Hd. simpl.
  by rewrite slice_to_nil, fused_nil.
Qed.

Lemma fused_nonempty m k rs r :
  (1 <= k)%Z -> r ∈ rs -> float_ge (similarity_score r) m = true -> fused m k rs <> [].
Proof.
  intros Hk Hr Hp. unfold fused. rewrite unique_loop_filter_then_dedup.
  assert (Hne : filter_then_dedup m rs <> []).
  { apply (first_seen_nonempty _ _ r); [|set_solver].
    apply list_elem_of_filter. split; [|done]. unfold passes. by rewrite Hp. }
  pose proof (Permutation_length (sort_desc_perm similarity_score (filter_then_dedup m rs))) as Hlen.
  unfold slice_to. destruct (Z.leb_spec 0 k); [|lia].
  destruct (sort_desc similarity_score (filter_then_dedup m rs)) as [|x l] eqn:Hs.
  - destruct (filter_then_dedup m rs); [done|discriminate].
  - destruct (Z.to_nat k) eqn:Hn; [lia|done].
Qed.

Lemma foldl_omap {A B} (f : A -> option B) (l : list A) (acc : list B) :
  foldl (fun related x => match f x with
                          | Some y => related ++ [y]
                          | None => related
                          end) acc l = acc ++ omap f l.
Proof.
  revert acc. induction l as [|x l IH]; intros acc; simpl; [by rewrite app_nil_r|].
  rewrite IH. destruct (f x); [by rewrite <- app_assoc|done].
Qed.

Lemma get_api_by_name_in_Some docs n d :
  get_api_by_name_in docs n = Some d -> api_name d = n /\ d ∈ docs.
Proof.
  induction docs as [|x docs IH]; simpl; [done|].
  destruct (String.eqb_spec (api_name x) n) as [Hn|Hn].
  - intros [= <-]. split; [done|left].
  - intros [? ?]%IH. split; [done|by right].
Qed.

Lemma semantic_loop_candidates query_embedding docs results :
  shapes_agree query_embedding docs = true ->
  semantic_loop query_embedding docs results
  = Return (results ++ omap (cosine_candidate query_embedding) docs).
Proof.
  revert results. induction docs as [|d docs IH]; intros results; simpl.
  - by rewrite app_nil_r.
  - intros [Hd Hdocs]%andb_prop. unfold cosine_candidate at 1.
    destruct (embedding d) as [e|]; simpl; [|by apply IH].
    destruct (np_dot query_embedding e) as [dot|]; [|done]. simpl.
    rewrite IH by done. by rewrite <- app_assoc.
Qed.

Lemma semantic_loop_raises query_embedding docs results :
  shapes_agree query_embedding docs = false ->
  exists x, semantic_loop query_embedding docs results = Raise x.
Proof.
  revert results. induction docs as [|d docs IH]; intros results; simpl; [done|].
  destruct (embedding d) as [e|]; [|apply IH].
  destruct (np_dot query_embedding e) as [dot|x]; simpl; [apply IH|eauto].
Qed.

Lemma omap_cosine_length query_embedding docs :
  shapes_agree query_embedding docs = true ->
  length (omap (cosine_candidate query_embedding) docs)
  = length (filter (fun d => is_Some (embedding d)) docs).
Proof.
  induction docs as [|d docs IH]; simpl; [done|].
  intros [Hd Hdocs]%andb_prop. rewrite filter_cons. unfold cosine_candidate at 1.
  destruct (embedding d) as [e|]; simpl.
  - destruct (np_dot query_embedding e); [|done]. simpl.
    f_equal. by apply IH.
  - by apply IH.
Qed.

End Facts.
End SearchFacts.

(** ** The cache: when [set] writes the file *)

Module CacheFacts.
Import Py EmbeddingCache Durable.

Section Facts.
Context {ndarray : Type}.
Local Abbreviation t := (EmbeddingCache.t ndarray).
Implicit Types (c : t) (text : string) (v : ndarray).

Lemma set_cache c text v :
  cache (set c text v) = <[_get_cache_key c text := v]> (cache c).
Proof. unfold set. simpl. by destruct (_ =? _)%Z. Qed.

Lemma set_flush c text v :
  (Z.of_nat (size (<[_get_cache_key c text := v]> (cache c))) mod 10 = 0)%Z ->
  dumps (set c text v) = S (dumps c)
  /\ cache_file (set c text v) = Some (Return (cache (set c text v))).
Proof.
  intros Hz. unfold set. simpl. apply Z.eqb_eq in Hz. by rewrite Hz.
Qed.

Lemma set_no_flush c text v :
  (Z.of_nat (size (<[_get_cache_key c text := v]> (cache c))) mod 10 <> 0)%Z ->
  dumps (set c text v) = dumps c /\ cache_file (set c text v) = cache_file c.
Proof.
  intros Hz. unfold set. simpl. apply Z.eqb_neq in Hz. by rewrite Hz.
Qed.

Lemma mod10_succ (n : nat) :
  (Z.of_nat (S n) mod 10)%Z <> 0%Z -> S n mod 10 = S (n mod 10).
Proof.
  intros Hz. apply Nat2Z.inj. rewrite Nat2Z.inj_succ, !Nat2Z.inj_mod.
  Z.to_euclidean_division_equations. lia.
Qed.

Lemma set_within_batch c text v : within_batch c -> within_batch (set c text v).
Proof.
  unfold within_batch. intros Hc.
  set (k := _get_cache_key c text).
  destruct (Z.eq_dec (Z.of_nat (size (<[k := v]> (cache c))) mod 10)%Z 0%Z) as [Hz|Hz].
  - destruct (set_flush c text v Hz) as [_ Hf].
    unfold unpersisted, durable_keys. rewrite Hf.
    rewrite difference_diag_L, size_empty. lia.
  - destruct (set_no_flush c text v Hz) as [_ Hf].
    assert (Hd : durable_keys (set c text v) = durable_keys c)
      by (unfold durable_keys; by rewrite Hf).
    unfold unpersisted in *. rewrite Hd, set_cache. fold k.
    generalize dependent (durable_keys c). intros K Hc _.
    rewrite dom_insert_L.
    destruct (cache c !! k) as [w|] eqn:Hk.
    + rewrite map_size_insert_Some by eauto.
      assert ({[k]} ∪ dom (cache c) = dom (cache c)) as ->; [|done].
      apply elem_of_dom_2 in Hk. apply leibniz_equiv. intros x.
      rewrite elem_of_union, elem_of_singleton. split; [intros [->|?]; done|by right].
    + rewrite map_size_insert_None by done.
      rewrite map_size_insert_None in Hz by done.
      assert (Hle : size (({[k]} ∪ dom (cache c)) ∖ K) <= S (size (dom (cache c) ∖ K))).
      { etrans; [apply (subseteq_size _ ({[k]} ∪ dom (cache c) ∖ K))|].
        - intros x. rewrite !elem_of_difference, !elem_of_union, elem_of_difference. tauto.
        - rewrite size_union_alt, size_singleton.
          apply le_n_S, subseteq_size. intros x. rewrite elem_of_difference. tauto. }
      revert Hc Hz Hle.
      generalize (size (cache c)) (size (({[k]} ∪ dom (cache c)) ∖ K))
                 (size (dom (cache c) ∖ K)).
      intros n a b Hc Hz Hle. rewrite (mod10_succ n Hz). lia.
Qed.

Lemma set_many_within_batch c calls :
  within_batch c -> within_batch (set_many c calls).
Proof.
  unfold set_many. revert c. induction calls as [|[t v] calls IH]; intros c Hc; simpl; [done|].
  by apply IH, set_within_batch.
Qed.

End Facts.
End CacheFacts.

(** * The claims of the specification *)

(** ** The embedding cache *)

Module CacheContract.
Import Py EmbeddingCache Durable CacheFacts.
Local Open Scope string_scope.
Local Open Scope list_scope.

(** Closes a conjunction of closed equations by evaluating each side. *)
Local Ltac evaluate :=
  repeat match goal with |- _ /\ _ => split end; vm_compute; reflexivity.

(** C7: after [set(t, v)], [get(t)] returns [v], also when the cache is
    saved in between; and the lookup key is the MD5 hex digest of the
    UTF-8 bytes of the text, whatever cache object derives it. *)
Theorem cache_round_trip {ndarray : Type} (c c' : EmbeddingCache.t ndarray)
    (text : string) (v : ndarray) :
  get (set c text v) text = Some v
  /\ get (save (set c text v)) text = Some v
  /\ _get_cache_key c text = MD5.hexdigest (MD5.encode_utf8 text)
  /\ _get_cache_key c' text = _get_cache_key c text.
Proof.
  unfold get. simpl. rewrite set_cache. unfold _get_cache_key.
  by rewrite lookup_insert_eq.
Qed.

(** C8, as the code has it: [set] writes the file exactly when the
    mapping, after the assignment, has a multiple of 10 entries; from a
    state in which no key is missing from the file, any run of [set]
    calls leaves at most 9 keys missing from it; and [save] always writes
    the file. *)
Theorem cache_write_policy {ndarray : Type} (c : EmbeddingCache.t ndarray) :
  (forall text v,
     let after := <[_get_cache_key c text := v]> (cache c) in
     cache (set c text v) = after
     /\ ((Z.of_nat (size after) mod 10 = 0)%Z ->
         dumps (set c text v) = S (dumps c)
         /\ cache_file (set c text v) = Some (Return after))
     /\ ((Z.of_nat (size after) mod 10 <> 0)%Z ->
         dumps (set c text v) = dumps c
         /\ cache_file (set c text v) = cache_file c))
  /\ (dumps (save c) = S (dumps c)
      /\ cache_file (save c) = Some (Return (cache c))
      /\ cache (save c) = cache c)
  /\ (forall calls, size (unpersisted c) = 0%nat ->
        size (unpersisted (set_many c calls)) <= 9).
Proof.
  split; [|split; [done|]].
  - intros text v. simpl. split; [apply set_cache|]. split.
    + intros Hz. destruct (set_flush c text v Hz) as [Hd Hf].
      split; [done|]. by rewrite Hf, set_cache.
    + apply set_no_flush.
  - intros calls Hc.
    assert (Hw : within_batch (set_many c calls)).
    { apply set_many_within_batch. unfold within_batch. rewrite Hc. lia. }
    unfold within_batch in Hw.
    pose proof (Nat.mod_upper_bound (size (cache (set_many c calls))) 10). lia.
Qed.

Lemma cache_write_policy_witness :
  size (unpersisted (EmbeddingCache._load_cache (ndarray := ListLibs.array) None None)) = 0%nat
  /\ size (unpersisted (set_many (EmbeddingCache._load_cache None None)
                          ((fun t => (t, [ListLibs.f32 1])) <$> Demo.texts))) <= 9.
Proof.
  assert (H0 : size (unpersisted (EmbeddingCache._load_cache (ndarray := ListLibs.array)
                                    None None)) = 0%nat) by (vm_compute; reflexivity).
  split; [exact H0|].
  destruct (cache_write_policy (EmbeddingCache._load_cache (ndarray := ListLibs.array)
                                  None None)) as (_ & _ & Hb).
  exact (Hb _ H0).
Defined.

(** C8 fails as stated: eleven [set] calls on fresh texts followed by
    eleven [set] calls that overwrite them make 22 calls with a single
    write of the file, after the tenth; in the end all eleven vectors in
    memory are new and the file holds the ten old ones. *)
Lemma overwrites_do_not_flush :
  let c0 := EmbeddingCache._load_cache None None in
  let c1 := Demo.set_all [ListLibs.f32 1] c0 in
  let c2 := Demo.set_all [ListLibs.f32 2] c1 in
  dumps c0 = 0%nat /\ dumps c1 = 1%nat /\ dumps c2 = 1%nat
  /\ (map_to_list (cache c2)).*2 = replicate 11 [ListLibs.f32 2]
  /\ (map_to_list (on_disk c2)).*2 = replicate 10 [ListLibs.f32 1].
Proof. cbv zeta. evaluate. Qed.

End CacheContract.

(** ** Search, fusion and lookups *)

Module SearchContract.
Import Py PyFacts RAGManager Fusion FusionFacts SearchFacts.
Local Open Scope string_scope.
Local Open Scope list_scope.

(** Closes a conjunction of closed equations by evaluating each side. *)
Local Ltac evaluate :=
  repeat match goal with |- _ /\ _ => split end; vm_compute; reflexivity.

(** C1: with a non-negative [top_k], every list that [search_apis]
    returns has at most [top_k] results, is in descending order of score,
    holds only scores [>= min_similarity] and no identifier twice; and a
    list is returned whenever the corpus is empty or the query has a
    token. *)
Theorem search_apis_contract {ndarray Model : Type} {L : Libs ndarray Model}
    (self : RAGManager.t ndarray Model) (query : string)
    (top_k : Z) (min_similarity : float) :
  (0 <= top_k)%Z ->
  (forall l, (search_apis self query top_k min_similarity).2 = Return l ->
     (Z.of_nat (length l) <= top_k)%Z
     /\ (forall i j a b, (i < j)%nat -> l !! i = Some a -> l !! j = Some b ->
           float_ge (similarity_score a) (similarity_score b) = true)
     /\ (forall r, r ∈ l -> float_ge (similarity_score r) min_similarity = true)
     /\ NoDup ((fun r => api_name (api_doc r)) <$> l))
  /\ (api_docs self = [] \/ split (lower query) <> [] ->
      exists l, (search_apis self query top_k min_similarity).2 = Return l).
Proof.
  intros Hk. rewrite search_apis_fused. split.
  - intros l Hl.
    destruct (_keyword_search self query top_k) as [kw|]; [|done].
    destruct (_context_search self query top_k) as [ctx|]; [|done].
    injection Hl as <-. by apply fused_contract.
  - intros Hq.
    destruct (keyword_search_returns self query top_k) as [kw ->].
    destruct Hq as [Hd|Hq].
    + unfold _context_search. rewrite Hd. simpl. eauto.
    + destruct (context_search_returns self query top_k Hq) as [ctx ->]. simpl. eauto.
Qed.

Lemma search_apis_contract_witness :
  (0 <= 5)%Z
  /\ exists l, (search_apis (L := Demo.down) Demo.degraded "expectation values" 5 Demo.f0_3).2 = Return l
               /\ (Z.of_nat (length l) <= 5)%Z
               /\ NoDup ((fun r => api_name (api_doc r)) <$> l).
Proof.
  assert (Hk : (0 <= 5)%Z) by lia. split; [exact Hk|].
  destruct (search_apis_contract (L := Demo.down) Demo.degraded "expectation values" 5 Demo.f0_3 Hk)
    as [Hc Ht].
  destruct Ht as [l Hl]; [right; vm_compute; discriminate|].
  exists l. destruct (Hc l Hl) as (Hlen & _ & _ & Hnd). auto.
Defined.




(** C3: a query without tokens finds no keyword match, but as soon as
    its lowercased text occurs in the usage context of a document (the
    empty string occurs in every text) the context strategy divides by
    the token count 0: [_context_search] and [search_apis] raise
    [ZeroDivisionError]. *)
Theorem empty_query_raises {ndarray Model : Type} {L : Libs ndarray Model}
    (self : RAGManager.t ndarray Model) (query : string)
    (top_k : Z) (min_similarity : float) :
  split (lower query) = [] ->
  Exists (fun d => contains (lower query) (lower (usage_context d)) = true)
         (api_docs self) ->
  _keyword_search self query top_k = Return []
  /\ _context_search self query top_k = Raise ZeroDivisionError
  /\ (search_apis self query top_k min_similarity).2 = Raise ZeroDivisionError.
Proof.
  intros Hq Hex.
  assert (Hkw : _keyword_search self query top_k = Return []).
  { unfold _keyword_search. rewrite Hq. simpl. rewrite keyword_loop_empty. simpl.
    by rewrite slice_to_nil. }
  assert (Hctx : _context_search self query top_k = Raise ZeroDivisionError).
  { unfold _context_search. by rewrite context_loop_raises. }
  split; [done|]. split; [done|].
  by rewrite search_apis_fused, Hkw, Hctx.
Qed.

Lemma empty_query_raises_witness :
  _keyword_search Demo.degraded "" 5 = Return []
  /\ _context_search Demo.degraded "" 5 = Raise ZeroDivisionError
  /\ (search_apis (L := Demo.down) Demo.degraded "" 5 Demo.f0_3).2 = Raise ZeroDivisionError.
Proof.
  apply (empty_query_raises (L := Demo.down) Demo.degraded "" 5 Demo.f0_3).
  - reflexivity.
  - apply Exists_cons_hd. reflexivity.
Defined.

(** C4, as the code has it: with the model loaded and a query that
    [encode] accepts, the semantic strategy returns nothing at all when
    [np_dot] rejects the embedding of some document; otherwise the loop
    forms one candidate for every document that has an embedding, none
    is skipped, and its score is [float(dot / (norm_q * norm_e))] in IEEE
    arithmetic, whatever the norms are: when a norm is exactly zero the
    division is still made and the score is NaN or an infinity.  The
    strategy returns these candidates as [list.sort] arranges them, cut
    to [top_k]: in stable descending order of score when no score is
    NaN. *)
Theorem semantic_candidates {ndarray Model : Type} {L : Libs ndarray Model}
    (self : RAGManager.t ndarray Model) (query : string) (top_k : Z)
    (mdl : Model) (q : ndarray) :
  embedding_model (_init_embedding_model self) = Some mdl ->
  encode mdl query = Return q ->
  let candidates := omap (cosine_candidate q) (api_docs self) in
  let found := (_semantic_search self query top_k).2 in
  (shapes_agree q (api_docs self) = false -> found = [])
  /\ (shapes_agree q (api_docs self) = true ->
      semantic_loop q (api_docs self) [] = Return candidates
      /\ found = slice_to (list_sort_reverse sort_order similarity_score candidates) top_k
      /\ list_sort_reverse sort_order similarity_score candidates ≡ₚ candidates
      /\ (Forall (fun r => is_nan (similarity_score r) = false) candidates ->
          found = slice_to (sort_desc similarity_score candidates) top_k)
      /\ length candidates
         = length (filter (fun d => is_Some (embedding d)) (api_docs self)))
  /\ (forall d e dot, embedding d = Some e -> np_dot q e = Return dot ->
      let score :=
        to_float (np_div dot (np_mul (np_linalg_norm q) (np_linalg_norm e))) in
      cosine_candidate q d = Some (Build_SearchResult d score "semantic")
      /\ ((exists s, np_linalg_norm q = S754_zero s)
          \/ (exists s, np_linalg_norm e = S754_zero s) ->
          score = S754_nan \/ exists s, score = S754_infinity s)).
Proof.
  intros Hm Henc candidates found.
  assert (Hfound : found
            = match semantic_loop q (api_docs self) [] with
              | Return results =>
                  slice_to (list_sort_reverse sort_order similarity_score results) top_k
              | Raise _ => []
              end).
  { unfold found, _semantic_search. rewrite Hm, Henc. simpl.
    destruct (init_model_frame self) as [-> _].
    by destruct (semantic_loop q (api_docs self) []). }
  split; [|split].
  - intros Hs. rewrite Hfound.
    by destruct (semantic_loop_raises q (api_docs self) [] Hs) as (x & ->).
  - intros Hs.
    assert (Hloop : semantic_loop q (api_docs self) [] = Return candidates)
      by by rewrite semantic_loop_candidates.
    rewrite Hloop in Hfound.
    split; [exact Hloop|]. split; [exact Hfound|].
    split; [apply list_sort_reverse_perm|]. split; [|by apply omap_cosine_length].
    intros Hnan. by rewrite Hfound, list_sort_reverse_no_nan.
  - intros d e dot He Hdot score. split.
    + unfold cosine_candidate. rewrite He. simpl. by rewrite Hdot.
    + unfold score, np_div, np_mul.
      intros [[s Hz]|[s Hz]]; rewrite Hz.
      * destruct (np_linalg_norm e) as [?|?| |? ? ?], dot as [?|?| |? ? ?]; simpl; eauto.
      * destruct (np_linalg_norm q) as [?|?| |? ? ?], dot as [?|?| |? ? ?]; simpl; eauto.
Qed.

Lemma semantic_candidates_witness :
  (_semantic_search (L := Demo.up) Demo.loaded "estimator" (5 * 2)).2
  = slice_to (sort_desc similarity_score
                (omap (cosine_candidate (L := Demo.up) [ListLibs.f32 0; ListLibs.f32 1])
                      (api_docs Demo.loaded)))
             (5 * 2).
Proof.
  destruct (semantic_candidates (L := Demo.up) Demo.loaded "estimator" (5 * 2)
              Demo.table [ListLibs.f32 0; ListLibs.f32 1]) as (_ & Hagree & _).
  - vm_compute. reflexivity.
  - vm_compute. reflexivity.
  - destruct Hagree as (_ & _ & _ & Hsorted & _); [vm_compute; reflexivity|].
    apply Hsorted. vm_compute. repeat constructor.
Defined.

(** C4 fails as stated: the embedding of [sampler_run] is the zero
    vector, its norm is exactly zero, and the semantic strategy still
    divides and yields a candidate for it, with score NaN. *)
Lemma zero_norm_not_skipped :
  embedding <$> api_docs Demo.loaded_zero = [Some [ListLibs.f32 0; ListLibs.f32 0]]
  /\ np_linalg_norm (Libs := Demo.up) [ListLibs.f32 0; ListLibs.f32 0] = S754_zero false
  /\ encode (Libs := Demo.up) Demo.table "sampler" = Return [ListLibs.f32 0; ListLibs.f32 1]
  /\ Demo.show <$> (_semantic_search (L := Demo.up) Demo.loaded_zero "sampler" (5 * 2)).2
     = [("sampler_run", S754_nan, "semantic")].
Proof. evaluate. Qed.

(** A run with a NaN among several cosine scores: the scores are
    [0.0], NaN, [0.707..] and [1.0] in load order; the sort leaves the
    NaN candidate first and the score [0.0] last, and with [top_k = 1]
    the strategy is cut to the NaN candidate and the one with score
    [1.0], which is the result of [search_apis]. *)
Lemma nan_score_run :
  Demo.show <$> omap (cosine_candidate (L := Demo.up) [ListLibs.f32 0; ListLibs.f32 1])
                     (api_docs Demo.loaded_four)
  = [("estimator_run", S754_zero false, "semantic");
     ("sampler_run", S754_nan, "semantic");
     ("backend_run", ListLibs.f64 6369051563524096 (-53), "semantic");
     ("transpile", ListLibs.f64 1 0, "semantic")]
  /\ Demo.show <$> (_semantic_search (L := Demo.up) Demo.loaded_four "measure" 10).2
     = [("sampler_run", S754_nan, "semantic");
        ("transpile", ListLibs.f64 1 0, "semantic");
        ("backend_run", ListLibs.f64 6369051563524096 (-53), "semantic");
        ("estimator_run", S754_zero false, "semantic")]
  /\ Demo.show <$> (_semantic_search (L := Demo.up) Demo.loaded_four "measure" (1 * 2)).2
     = [("sampler_run", S754_nan, "semantic");
        ("transpile", ListLibs.f64 1 0, "semantic")]
  /\ Demo.show_all (search_apis (L := Demo.up) Demo.loaded_four "measure" 1 Demo.f0_3).2
     = Return [("transpile", ListLibs.f64 1 0, "semantic")].
Proof. evaluate. Qed.

(** C5, as the code has it: with the model unavailable the semantic
    strategy yields nothing, and for a query with at least one token
    [search_apis] returns the fusion of the keyword and context
    candidates, which is non-empty when [top_k >= 1] and one of these
    candidates has a score [>= min_similarity]. *)
Theorem degraded_search {ndarray Model : Type} {L : Libs ndarray Model}
    (self : RAGManager.t ndarray Model) (query : string) (top_k : Z)
    (min_similarity : float) :
  embedding_model self = None ->
  (forall mdl, SentenceTransformer <> Return mdl) ->
  split (lower query) <> [] ->
  (forall k, (_semantic_search self query k).2 = [])
  /\ exists kw ctx,
       _keyword_search self query top_k = Return kw
       /\ _context_search self query top_k = Return ctx
       /\ (search_apis self query top_k min_similarity).2
          = Return (fused min_similarity top_k (kw ++ ctx))
       /\ ((1 <= top_k)%Z ->
           (exists r, r ∈ kw ++ ctx /\ float_ge (similarity_score r) min_similarity = true) ->
           fused min_similarity top_k (kw ++ ctx) <> []).
Proof.
  intros Hm Hload Hq.
  assert (Hsem : forall k, (_semantic_search self query k).2 = [])
    by (intros k; by apply semantic_search_unavailable).
  split; [exact Hsem|].
  destruct (keyword_search_returns self query top_k) as [kw Hkw].
  destruct (context_search_returns self query top_k Hq) as [ctx Hctx].
  exists kw, ctx. split; [done|]. split; [done|]. split.
  - by rewrite search_apis_fused, Hkw, Hctx, Hsem.
  - intros Hk (r & Hr & Hp). by eapply fused_nonempty.
Qed.

Lemma degraded_search_witness :
  exists l, (search_apis (L := Demo.down) Demo.degraded "expectation values" 5 Demo.f0_3).2
            = Return l.
Proof.
  destruct (degraded_search (L := Demo.down) Demo.degraded "expectation values" 5 Demo.f0_3)
    as (_ & kw & ctx & _ & _ & Hout & _).
  - vm_compute. reflexivity.
  - intros mdl. vm_compute. discriminate.
  - vm_compute. discriminate.
  - eexists. exact Hout.
Defined.

(** C5 fails as stated: with the model unavailable, the query matches
    [estimator_run] by keyword and by context, each with score [0.25],
    and the result for [min_similarity = 0.3] is empty. *)
Lemma degraded_search_can_be_empty :
  embedding_model Demo.degraded = None
  /\ SentenceTransformer (Libs := Demo.down) = Raise RuntimeError
  /\ Demo.show_all (_keyword_search Demo.degraded "expectation zzz qqq xxx" 5)
     = Return [("estimator_run", ListLibs.f64 1 (-2), "keyword")]
  /\ Demo.show_all (_context_search Demo.degraded "expectation zzz qqq xxx" 5)
     = Return [("estimator_run", ListLibs.f64 1 (-2), "context")]
  /\ (search_apis (L := Demo.down) Demo.degraded "expectation zzz qqq xxx" 5 Demo.f0_3).2
     = Return []
  /\ ~ degrades_to_nonempty (L := Demo.down) Demo.degraded "expectation zzz qqq xxx" 5
         Demo.f0_3.
Proof.
  assert (Hout : (search_apis (L := Demo.down) Demo.degraded "expectation zzz qqq xxx" 5
                    Demo.f0_3).2 = Return []) by (vm_compute; reflexivity).
  do 5 (split; [vm_compute; reflexivity|]).
  intros Hc.
  assert (Hkw : _keyword_search Demo.degraded "expectation zzz qqq xxx" 5
                = Return Demo.kw_sparse) by (vm_compute; reflexivity).
  assert (Hctx : _context_search Demo.degraded "expectation zzz qqq xxx" 5
                 = Return Demo.ctx_sparse) by (vm_compute; reflexivity).
  assert (Hm : embedding_model Demo.degraded = None) by (vm_compute; reflexivity).
  assert (Hload : forall mdl, SentenceTransformer (Libs := Demo.down) <> Return mdl)
    by (intros mdl; vm_compute; discriminate).
  assert (Hne : Demo.kw_sparse ++ Demo.ctx_sparse <> []) by (vm_compute; discriminate).
  destruct (Hc Hm Hload Demo.kw_sparse Demo.ctx_sparse Hkw Hctx Hne) as (l & Hl & Hl').
  rewrite Hout in Hl. injection Hl as <-. exact (Hl' eq_refl).
Qed.

(** C6, as the code has it: a negative [top_k] is not rejected; for a
    query with at least one token [search_apis] returns the sorted unique
    results without their last [|top_k|] entries. *)
Theorem negative_top_k_slices {ndarray Model : Type} {L : Libs ndarray Model}
    (self : RAGManager.t ndarray Model) (query : string) (top_k : Z)
    (min_similarity : float) :
  (top_k < 0)%Z ->
  split (lower query) <> [] ->
  exists kw ctx,
    _keyword_search self query top_k = Return kw
    /\ _context_search self query top_k = Return ctx
    /\ let unique := filter_then_dedup min_similarity
                       ((_semantic_search self query (top_k * 2)).2 ++ kw ++ ctx) in
       (search_apis self query top_k min_similarity).2
       = Return (take (length unique - Z.to_nat (- top_k))
                      (sort_desc similarity_score unique)).
Proof.
  intros Hk Hq.
  destruct (keyword_search_returns self query top_k) as [kw Hkw].
  destruct (context_search_returns self query top_k Hq) as [ctx Hctx].
  exists kw, ctx. split; [done|]. split; [done|]. simpl.
  rewrite search_apis_fused, Hkw, Hctx. simpl. f_equal.
  unfold fused. rewrite unique_loop_filter_then_dedup, slice_to_negative by done.
  by rewrite (Permutation_length (sort_desc_perm similarity_score _)).
Qed.

Lemma negative_top_k_slices_witness :
  exists l, (search_apis (L := Demo.down) Demo.degraded "run" (-1) Demo.f0_3).2 = Return l.
Proof.
  destruct (negative_top_k_slices (L := Demo.down) Demo.degraded "run" (-1) Demo.f0_3)
    as (kw & ctx & _ & _ & Hout).
  - lia.
  - vm_compute. discriminate.
  - eexists. exact Hout.
Defined.

(** C6 fails as stated: with [top_k = -1] the call returns a list. *)
Lemma negative_top_k_returns :
  Demo.show_all (search_apis (L := Demo.down) Demo.degraded "run" (-1) Demo.f0_3).2
  = Return [("estimator_run", ListLibs.f64 2 0, "keyword")].
Proof. vm_compute. reflexivity. Qed.

(** C9: [get_related_apis] returns the documents to which the related
    identifiers of [X] resolve by exact lookup, in list order, and drops
    the others; nothing when [X] itself does not resolve, and exactly
    one document when one of two related identifiers resolves. *)
Theorem get_related_apis_resolves {ndarray Model : Type}
    (self : RAGManager.t ndarray Model) (X : string) :
  get_related_apis self X
    = match get_api_by_name self X with
      | None => []
      | Some d => omap (get_api_by_name self) (related_apis d)
      end
  /\ (get_api_by_name self X = None -> get_related_apis self X = [])
  /\ (forall d good bad rd,
        get_api_by_name self X = Some d ->
        get_api_by_name self good = Some rd ->
        get_api_by_name self bad = None ->
        related_apis d = [good; bad] \/ related_apis d = [bad; good] ->
        get_related_apis self X = [rd] /\ api_name rd = good).
Proof.
  assert (Heq : get_related_apis self X
    = match get_api_by_name self X with
      | None => []
      | Some d => omap (get_api_by_name self) (related_apis d)
      end).
  { unfold get_related_apis. destruct (get_api_by_name self X); [|done].
    by rewrite foldl_omap. }
  split; [exact Heq|]. split.
  - intros Hn. by rewrite Heq, Hn.
  - intros d good bad rd Hd Hg Hb Hrel. rewrite Heq, Hd.
    split; [|by apply get_api_by_name_in_Some in Hg as [? _]].
    destruct Hrel as [-> | ->]; simpl; by rewrite Hg, Hb.
Qed.

Lemma get_related_apis_resolves_witness :
  api_name <$> get_related_apis Demo.degraded "estimator_run" = ["sampler_run"]
  /\ get_related_apis Demo.degraded "no_such_api" = [].
Proof.
  destruct (get_related_apis_resolves Demo.degraded "estimator_run") as (_ & _ & Hone).
  destruct (get_related_apis_resolves Demo.degraded "no_such_api") as (_ & Hnone & _).
  split.
  - destruct (Hone Demo.estimator_run "sampler_run" "missing_api" Demo.sampler_run)
      as [-> _]; try (vm_compute; reflexivity).
    left. vm_compute. reflexivity.
  - apply Hnone. vm_compute. reflexivity.
Defined.

(** C10: [search_apis] and [_semantic_search] return the manager with
    the same documents and the same embedding cache (mapping and files);
    the other two strategies only read the manager. *)
Theorem search_frame {ndarray Model : Type} {L : Libs ndarray Model}
    (self : RAGManager.t ndarray Model) (query : string)
    (top_k : Z) (min_similarity : float) :
  let after := (search_apis self query top_k min_similarity).1 in
  let after_semantic := (_semantic_search self query top_k).1 in
  api_docs after = api_docs self
  /\ embedding_cache after = embedding_cache self
  /\ EmbeddingCache.cache (embedding_cache after) = EmbeddingCache.cache (embedding_cache self)
  /\ api_docs after_semantic = api_docs self
  /\ embedding_cache after_semantic = embedding_cache self.
Proof.
  simpl.
  assert (Hs : api_docs (search_apis self query top_k min_similarity).1 = api_docs self
               /\ embedding_cache (search_apis self query top_k min_similarity).1
                  = embedding_cache self).
  { unfold search_apis. destruct (api_docs self) eqn:Hd; [simpl; by rewrite Hd|].
    pose proof (semantic_search_frame self query (top_k * 2)) as Hf.
    destruct (_semantic_search self query (top_k * 2)) as [self' sem]. simpl in *.
    by rewrite <- Hd. }
  destruct Hs as [Hs1 Hs2]. rewrite Hs1, Hs2.
  pose proof (semantic_search_frame self query top_k) as [Hf1 Hf2].
  by rewrite Hf1, Hf2.
Qed.

End SearchContract.

(** * Further properties of the module *)

(** ** Strings and integer division *)

Module StrFacts.
Import Py.
Local Open Scope string_scope.
Local Open Scope list_scope.

Lemma lower_char_idemp c : lower_char (lower_char c) = lower_char c.
Proof. destruct c as [[] [] [] [] [] [] [] []]; reflexivity. Qed.

Lemma lower_idemp s : lower (lower s) = lower s.
Proof. induction s as [|c s IH]; simpl; [done|]. by rewrite lower_char_idemp, IH. Qed.

Lemma lower_app a b : lower (a +:+ b) = lower a +:+ lower b.
Proof. induction a as [|c a IH]; simpl; [done|]. by rewrite IH. Qed.

Lemma prefix_app w a b : String.prefix w a = true -> String.prefix w (a +:+ b) = true.
Proof.
  revert a. induction w as [|c w IH]; intros a; simpl.
  { intros _. by destruct (a +:+ b). }
  destruct a as [|c' a]; simpl; [intros; discriminate|].
  destruct (Ascii.ascii_dec c c'); [apply IH|intros; discriminate].
Qed.

Lemma prefix_self_app w b : String.prefix w (w +:+ b) = true.
Proof.
  induction w as [|c w IH]; simpl; [by destruct b|].
  destruct (Ascii.ascii_dec c c); [done|congruence].
Qed.

Lemma contains_cons w c s :
  contains w (String c s) = String.prefix w (String c s) || contains w s.
Proof. reflexivity. Qed.

Lemma contains_app_l w a b : contains w a = true -> contains w (a +:+ b) = true.
Proof.
  induction a as [|c a IH].
  - simpl. rewrite orb_false_r. destruct w; [|intros; discriminate].
    intros _. by destruct b.
  - change (String c a +:+ b) with (String c (a +:+ b)). rewrite !contains_cons.
    intros [Hp|Hc]%orb_prop.
    + change (String c (a +:+ b)) with (String c a +:+ b). by rewrite (prefix_app _ _ b Hp).
    + rewrite (IH Hc). apply orb_true_r.
Qed.

Lemma contains_app_r w a b : contains w b = true -> contains w (a +:+ b) = true.
Proof.
  intros Hb. induction a as [|c a IH]; [done|].
  change (String c a +:+ b) with (String c (a +:+ b)). rewrite contains_cons, IH.
  apply orb_true_r.
Qed.

Lemma contains_prefix w b : contains w (w +:+ b) = true.
Proof.
  destruct (w +:+ b) as [|c s] eqn:Heq.
  - destruct w; [done|discriminate].
  - rewrite contains_cons, <- Heq. by rewrite prefix_self_app.
Qed.

Lemma string_of_list_ascii_snoc l c s :
  string_of_list_ascii (l ++ [c]) +:+ s = string_of_list_ascii l +:+ String c s.
Proof.
  induction l as [|x l IH]; [done|].
  change (String x (string_of_list_ascii (l ++ [c]) +:+ s)
          = String x (string_of_list_ascii l +:+ String c s)).
  by rewrite IH.
Qed.

(** Every token of [s.split()] occurs in [s]. *)
Lemma split_aux_contains s cur w :
  w ∈ split_aux s cur ->
  contains w (string_of_list_ascii (rev cur) +:+ s) = true.
Proof.
  revert cur. induction s as [|c s IH]; intros cur; simpl.
  - destruct cur as [|x cur]; [by intros ?%elem_of_nil|].
    intros ->%list_elem_of_singleton. apply contains_prefix.
  - destruct (is_space c).
    + intros [Hw|Hw]%elem_of_app.
      * destruct cur as [|x cur]; [by apply elem_of_nil in Hw|].
        apply list_elem_of_singleton in Hw as ->. apply contains_prefix.
      * apply contains_app_r. rewrite contains_cons.
        pose proof (IH [] Hw) as Hs. change (contains w s = true) in Hs.
        rewrite Hs. apply orb_true_r.
    + intros Hw%IH. simpl in Hw. by rewrite string_of_list_ascii_snoc in Hw.
Qed.

Lemma split_contains s w : w ∈ split s -> contains w s = true.
Proof. intros Hw. exact (split_aux_contains s [] w Hw). Qed.

End StrFacts.

Module DivFacts.
Import Py.

Section Round.
Variables prec emax : Z.

Lemma shr_1_nonneg mrs : (0 <= shr_m mrs)%Z -> (0 <= shr_m (shr_1 mrs))%Z.
Proof. destruct mrs as [[|[p|p|]|[p|p|]] r s]; simpl; lia. Qed.

Lemma iter_pos_shr_1_nonneg p mrs :
  (0 <= shr_m mrs)%Z -> (0 <= shr_m (SpecFloat.iter_pos shr_1 p mrs))%Z.
Proof.
  revert mrs. induction p as [p IH|p IH|]; intros mrs Hm; simpl.
  - by apply IH, IH, shr_1_nonneg.
  - by apply IH, IH.
  - by apply shr_1_nonneg.
Qed.

Lemma shr_fexp_nonneg m e l :
  (0 <= m)%Z -> (0 <= shr_m (shr_fexp prec emax m e l).1)%Z.
Proof.
  intros Hm. unfold shr_fexp, shr.
  assert (H0 : (0 <= shr_m (shr_record_of_loc m l))%Z) by by destruct l as [|[]].
  destruct (_ - e)%Z; simpl; try done. by apply iter_pos_shr_1_nonneg.
Qed.

Lemma round_nearest_even_nonneg m l : (0 <= m)%Z -> (0 <= round_nearest_even m l)%Z.
Proof. intros Hm. destruct l as [|[]]; simpl; try done; [destruct (Z.even m)|]; lia. Qed.

Lemma binary_round_aux_not_nan s m e l :
  (0 <= m)%Z -> is_nan (binary_round_aux prec emax s m e l) = false.
Proof.
  intros Hm. unfold binary_round_aux.
  pose proof (shr_fexp_nonneg m e l Hm) as H1.
  destruct (shr_fexp prec emax m e l) as [mrs' e']. simpl in H1.
  pose proof (shr_fexp_nonneg _ e' loc_Exact
                (round_nearest_even_nonneg _ (loc_of_shr_record mrs') H1)) as H2.
  destruct (shr_fexp prec emax _ e' loc_Exact) as [mrs'' e'']. simpl in H2.
  destruct (shr_m mrs''); [done| |lia]. by destruct (_ <=? _)%Z.
Qed.

Lemma SFdiv_core_nonneg m1 e1 m2 e2 :
  (0 < m1)%Z -> (0 < m2)%Z ->
  (0 <= (SFdiv_core_binary prec emax m1 e1 m2 e2).1.1)%Z.
Proof.
  intros H1 H2. unfold SFdiv_core_binary.
  set (m' := match _ with Z0 => m1 | Zpos _ => _ | Zneg _ => _ end).
  assert (Hm' : (0 <= m')%Z).
  { subst m'. destruct (_ - _ - _)%Z; [lia| |lia]. apply Z.shiftl_nonneg. lia. }
  pose proof (Z_div_mod m' m2 ltac:(lia)) as Hdm.
  destruct (Z.div_eucl m' m2) as [q r]. simpl. nia.
Qed.

End Round.

(** The quotient of a non-negative by a positive int is a number. *)
Lemma int_truediv_number a b :
  (0 <= a)%Z -> (0 < b)%Z ->
  exists x, int_truediv a b = Return x /\ is_nan x = false.
Proof.
  intros Ha Hb. unfold int_truediv. destruct (Z.eqb_spec b 0); [lia|].
  eexists. split; [done|]. unfold float_div.
  destruct a as [|pa|pa], b as [|pb|pb]; try lia; simpl; [done|].
  pose proof (SFdiv_core_nonneg f64_prec f64_emax (Zpos pa) 0 (Zpos pb) 0
                ltac:(lia) ltac:(lia)) as Hq.
  destruct (SFdiv_core_binary f64_prec f64_emax (Zpos pa) 0 (Zpos pb) 0) as [[q e] l].
  by apply binary_round_aux_not_nan.
Qed.

End DivFacts.

(** ** The cache across restarts *)

Module CacheProps.
Import Py EmbeddingCache Durable Lifecycle CacheFacts.
Local Open Scope string_scope.
Local Open Scope list_scope.

Section Props.
Context {ndarray : Type}.
Local Abbreviation t := (EmbeddingCache.t ndarray).
Implicit Types (c : t) (text : string) (v : ndarray).

Lemma restart_cache c :
  files_parse c = true -> cache (restart c) = on_disk c.
Proof.
  unfold files_parse, restart, _load_cache, on_disk.
  destruct (cache_file c) as [[d|e]|], (metadata_file c) as [[m|e']|];
    simpl; try done.
Qed.

Lemma set_files c text v :
  (cache_file (set c text v) = cache_file c
   /\ metadata_file (set c text v) = metadata_file c)
  \/ (cache_file (set c text v) = Some (Return (cache (set c text v)))
      /\ metadata_file (set c text v) = Some (Return (metadata (set c text v)))).
Proof. unfold set. simpl. destruct (_ =? _)%Z; simpl; auto. Qed.

Lemma set_files_parse c text v :
  files_parse c = true -> files_parse (set c text v) = true.
Proof.
  intros Hc. unfold files_parse.
  destruct (set_files c text v) as [[-> ->]|[-> ->]]; done.
Qed.

Lemma set_many_files_parse c calls :
  files_parse c = true -> files_parse (set_many c calls) = true.
Proof.
  unfold set_many. revert c.
  induction calls as [|[t' v] calls IH]; intros c Hc; simpl; [done|].
  by apply IH, set_files_parse.
Qed.

Lemma on_disk_dom c : dom (on_disk c) = durable_keys c.
Proof.
  unfold on_disk, durable_keys. destruct (cache_file c) as [[d|e]|]; try done;
    by rewrite dom_empty_L.
Qed.

End Props.

(** X1: what was set and saved is there after a restart: a new cache
    object on the directory left by [save] holds the same mapping, so
    [get] finds the vector again. *)
Theorem saved_cache_survives_restart {ndarray : Type}
    (c : EmbeddingCache.t ndarray) (text : string) (v : ndarray) :
  cache (restart (save c)) = cache c
  /\ get (restart (save (set c text v))) text = Some v.
Proof.
  assert (Hs : forall c' : EmbeddingCache.t ndarray, cache (restart (save c')) = cache c') by done.
  split; [apply Hs|]. unfold get. rewrite Hs, set_cache.
  by rewrite lookup_insert_eq.
Qed.

(** X2: a cache directory with an unreadable file gives an empty cache
    with the default metadata, whichever of the two files is the bad one:
    a metadata file that does not parse also discards a mapping that was
    read; missing files give the same start. *)
Theorem unreadable_file_gives_empty_cache {ndarray : Type} (e : exn)
    (cache_file : option (result (gmap string ndarray)))
    (metadata_file : option (result (list (string * option string)))) :
  (let c := _load_cache cache_file (Some (Raise e)) in
   cache c = ∅ /\ metadata c = default_metadata)
  /\ (let c := _load_cache (ndarray := ndarray) (Some (Raise e)) metadata_file in
      cache c = ∅ /\ metadata c = default_metadata)
  /\ (let c := _load_cache (ndarray := ndarray) None None in
      cache c = ∅ /\ metadata c = default_metadata).
Proof.
  unfold _load_cache. repeat split; simpl.
  - by destruct cache_file as [[d|e']|].
  - by destruct cache_file as [[d|e']|].
Qed.

(** X3: [set] touches one key only: a later [get] of another text
    returns what it returned before unless the two texts have the same
    MD5 digest, a second [set] of the same text replaces the first, and
    the mapping grows by at most one entry. *)
Theorem set_touches_one_key {ndarray : Type}
    (c : EmbeddingCache.t ndarray) (text other : string) (v w : ndarray) :
  (_get_cache_key c text <> _get_cache_key c other ->
   get (set c text v) other = get c other)
  /\ (_get_cache_key c text = _get_cache_key c other ->
      get (set c text v) other = Some v)
  /\ cache (set (set c text v) text w) = cache (set c text w)
  /\ size (cache c) <= size (cache (set c text v)) <= S (size (cache c)).
Proof.
  unfold get. rewrite !set_cache. unfold _get_cache_key.
  split; [|split; [|split]].
  - intros Hne. by rewrite lookup_insert_ne.
  - intros ->. by rewrite lookup_insert_eq.
  - by rewrite insert_insert_eq.
  - destruct (cache c !! MD5.hexdigest (MD5.encode_utf8 text)) eqn:Hk.
    + rewrite map_size_insert_Some by eauto. lia.
    + rewrite map_size_insert_None by done. lia.
Qed.

Lemma set_touches_one_key_witness :
  get (set (EmbeddingCache._load_cache (ndarray := ListLibs.array) None None)
           "t01" [ListLibs.f32 1]) "t02" = None.
Proof.
  destruct (set_touches_one_key (EmbeddingCache._load_cache (ndarray := ListLibs.array) None None)
              "t01" "t02" [ListLibs.f32 1] [ListLibs.f32 1]) as (Hne & _).
  rewrite Hne; [vm_compute; reflexivity|vm_compute; discriminate].
Defined.

(** X4: a crash loses at most nine keys: from a cache directory that
    parses and lacks no key of the mapping, after any run of [set] calls
    a restart reads back exactly what the last write stored, and at most
    9 keys of the mapping are missing from it. *)
Theorem crash_loses_at_most_nine_keys {ndarray : Type}
    (c : EmbeddingCache.t ndarray) (calls : list (string * ndarray)) :
  files_parse c = true ->
  size (unpersisted c) = 0%nat ->
  let before := set_many c calls in
  cache (restart before) = on_disk before
  /\ size (dom (cache before) ∖ dom (cache (restart before))) <= 9.
Proof.
  intros Hp Hu before.
  assert (Hr : cache (restart before) = on_disk before)
    by by apply restart_cache, set_many_files_parse.
  split; [exact Hr|]. rewrite Hr, on_disk_dom.
  assert (Hw : within_batch before).
  { apply set_many_within_batch. unfold within_batch. rewrite Hu. lia. }
  unfold within_batch, unpersisted in Hw.
  pose proof (Nat.mod_upper_bound (size (cache before)) 10). lia.
Qed.

Lemma crash_loses_at_most_nine_keys_witness :
  let before := set_many (EmbeddingCache._load_cache (ndarray := ListLibs.array) None None)
                  ((fun t => (t, [ListLibs.f32 1])) <$> Demo.texts) in
  size (dom (cache before) ∖ dom (cache (restart before))) <= 9.
Proof.
  refine (proj2 (crash_loses_at_most_nine_keys
                   (EmbeddingCache._load_cache (ndarray := ListLibs.array) None None)
                   ((fun t => (t, [ListLibs.f32 1])) <$> Demo.texts) _ _));
    vm_compute; reflexivity.
Defined.

End CacheProps.

(** ** Loading the knowledge base *)

Module LoaderProps.
Import Py RAGManager Durable Lifecycle Candidates CacheFacts SearchFacts.
Local Open Scope string_scope.
Local Open Scope list_scope.

Section Props.
Context {ndarray Model : Type} {L : Libs ndarray Model}.
Local Abbreviation APIDocEntry := (RAGManager.APIDocEntry ndarray).
Local Abbreviation t := (RAGManager.t ndarray Model).
Implicit Types (self : t) (d : APIDocEntry) (docs : list APIDocEntry).
Implicit Types (ec : EmbeddingCache.t ndarray) (mdl : Model).



Lemma same_entry_text (a b : APIDocEntry) :
  same_entry a b -> combined_text a = combined_text b.
Proof.
  unfold same_entry, set_embedding, combined_text. by intros [= -> _ _ -> _ _ _ -> _ _].
Qed.

Lemma same_entry_set d e : same_entry d (set_embedding d e).
Proof. done. Qed.

Lemma set_cache_subseteq ec text v :
  EmbeddingCache.get ec text = None ->
  EmbeddingCache.cache ec ⊆ EmbeddingCache.cache (EmbeddingCache.set ec text v).
Proof.
  unfold EmbeddingCache.get. intros Hn. rewrite set_cache. by apply insert_subseteq.
Qed.

Lemma precompute_loop_length mdl docs ec :
  Forall2 same_entry docs (precompute_loop mdl docs ec).1.
Proof.
  revert ec. induction docs as [|d docs IH]; intros ec; simpl; [constructor|].
  destruct (EmbeddingCache.get ec _) as [c|].
  - specialize (IH ec). destruct (precompute_loop mdl docs ec). by constructor.
  - destruct (encode mdl _) as [e|].
    + specialize (IH (EmbeddingCache.set ec
        (api_name d +:+ " " +:+ description d +:+ " " +:+ usage_context d) e)).
      destruct (precompute_loop mdl docs _). by constructor.
    + specialize (IH ec). destruct (precompute_loop mdl docs ec). by constructor.
Qed.

Lemma precompute_loop_cache mdl docs ec :
  EmbeddingCache.cache ec ⊆ EmbeddingCache.cache (precompute_loop mdl docs ec).2.
Proof.
  revert ec. induction docs as [|d docs IH]; intros ec; simpl; [done|].
  destruct (EmbeddingCache.get ec _) as [c|] eqn:Hg.
  - specialize (IH ec). by destruct (precompute_loop mdl docs ec).
  - destruct (encode mdl _) as [e|].
    + specialize (IH (EmbeddingCache.set ec
        (api_name d +:+ " " +:+ description d +:+ " " +:+ usage_context d) e)).
      destruct (precompute_loop mdl docs _). simpl in *.
      etrans; [by apply set_cache_subseteq|done].
    + specialize (IH ec). by destruct (precompute_loop mdl docs ec).
Qed.

Lemma set_dumps ec text v :
  EmbeddingCache.dumps ec <= EmbeddingCache.dumps (EmbeddingCache.set ec text v).
Proof. unfold EmbeddingCache.set. simpl. destruct (_ =? _)%Z; simpl; lia. Qed.

Lemma precompute_loop_dumps mdl docs ec :
  EmbeddingCache.dumps ec <= EmbeddingCache.dumps (precompute_loop mdl docs ec).2.
Proof.
  revert ec. induction docs as [|d docs IH]; intros ec; simpl; [done|].
  destruct (EmbeddingCache.get ec _) as [c|].
  - specialize (IH ec). by destruct (precompute_loop mdl docs ec).
  - destruct (encode mdl _) as [e|].
    + specialize (IH (EmbeddingCache.set ec
        (api_name d +:+ " " +:+ description d +:+ " " +:+ usage_context d) e)).
      pose proof (set_dumps ec
        (api_name d +:+ " " +:+ description d +:+ " " +:+ usage_context d) e).
      destruct (precompute_loop mdl docs _). simpl in *. lia.
    + specialize (IH ec). by destruct (precompute_loop mdl docs ec).
Qed.

Lemma get_weaken ec ec' text e :
  EmbeddingCache.cache ec ⊆ EmbeddingCache.cache ec' ->
  EmbeddingCache.get ec text = Some e -> EmbeddingCache.get ec' text = Some e.
Proof.
  unfold EmbeddingCache.get, EmbeddingCache._get_cache_key. intros Hsub Hg.
  by eapply lookup_weaken.
Qed.

Lemma precompute_loop_coherent mdl docs ec :
  Forall2 (coherent ec (precompute_loop mdl docs ec).2)
          docs (precompute_loop mdl docs ec).1.
Proof.
  revert ec. induction docs as [|d docs IH]; intros ec; simpl; [constructor|].
  fold (combined_text d).
  destruct (EmbeddingCache.get ec (combined_text d)) as [c|] eqn:Hg.
  - specialize (IH ec). pose proof (precompute_loop_cache mdl docs ec) as Hsub.
    destruct (precompute_loop mdl docs ec) as [docs' ec']. simpl in *.
    constructor; [|done]. split.
    + right. exists c. split; [done|]. by eapply get_weaken.
    + intros e He. simpl. congruence.
  - destruct (encode mdl (combined_text d)) as [e|x].
    + pose proof (set_cache_subseteq ec (combined_text d) e Hg) as Hsub1.
      specialize (IH (EmbeddingCache.set ec (combined_text d) e)).
      pose proof (precompute_loop_cache mdl docs
                    (EmbeddingCache.set ec (combined_text d) e)) as Hsub.
      destruct (precompute_loop mdl docs _) as [docs' ec']. simpl in *.
      constructor.
      * split; [|intros e' He'; congruence].
        right. exists e. split; [done|]. eapply get_weaken; [exact Hsub|].
        unfold EmbeddingCache.get. rewrite set_cache. apply lookup_insert_eq.
      * eapply Forall2_impl; [exact IH|]. intros a a' [H1 H2]. split; [done|].
        intros e' He'. apply H2. by eapply get_weaken.
    + specialize (IH ec). destruct (precompute_loop mdl docs ec) as [docs' ec']. simpl in *.
      constructor; [|done]. split; [by left|]. intros e He. congruence.
Qed.

Lemma append_apis_good_prefix apis docs :
  append_apis apis docs = docs ++ ((fun d => set_embedding d None) <$> good_prefix apis).
Proof.
  revert docs. induction apis as [|[d|x] apis IH]; intros docs; simpl;
    [by rewrite app_nil_r| |by rewrite app_nil_r].
  rewrite IH. by rewrite <- app_assoc.
Qed.

Lemma loaded_entries json_files acc :
  foldl (fun docs json_file =>
           match json_file with
           | Return apis => append_apis apis docs
           | Raise _ => docs
           end) acc json_files
  = acc ++ ((fun d : APIDocEntry => set_embedding d None) <$> entries_read json_files).
Proof.
  revert acc. induction json_files as [|[apis|x] fs IH]; intros acc; simpl.
  - by rewrite app_nil_r.
  - rewrite IH, append_apis_good_prefix. unfold entries_read. simpl.
    by rewrite fmap_app, app_assoc.
  - apply IH.
Qed.

Lemma Forall2_elem_r {A B} (P : A -> B -> Prop) (l : list A) (k : list B) (y : B) :
  Forall2 P l k -> y ∈ k -> exists x, x ∈ l /\ P x y.
Proof.
  intros HF. induction HF as [|a b l k Hab HF IH]; [by intros ?%elem_of_nil|].
  intros [->|Hy]%elem_of_cons.
  - exists a. split; [left|done].
  - destruct (IH Hy) as (x & Hx & HP). exists x. split; [by right|done].
Qed.

Lemma Forall2_conj {A B} {P Q : A -> B -> Prop} {l : list A} {k : list B} :
  Forall2 P l k -> Forall2 Q l k -> Forall2 (fun x y => P x y /\ Q x y) l k.
Proof. intros HP. induction HP; inversion 1; subst; constructor; auto. Qed.

(** [_precompute_embeddings], by whether a model is there after
    [_init_embedding_model]. *)
Lemma precompute_embeddings_unfold self :
  _precompute_embeddings self
  = match embedding_model (_init_embedding_model self) with
    | None => _init_embedding_model self
    | Some mdl =>
        Build (precompute_loop mdl (api_docs self) (embedding_cache self)).1
              (Some mdl)
              (EmbeddingCache.save
                 (precompute_loop mdl (api_docs self) (embedding_cache self)).2)
    end.
Proof.
  unfold _precompute_embeddings. destruct (init_model_frame self) as [Hd Hc].
  destruct (embedding_model (_init_embedding_model self)) as [mdl|] eqn:Hm; [|done].
  rewrite Hd, Hc. by destruct (precompute_loop mdl (api_docs self) (embedding_cache self)).
Qed.

Lemma init_model_None self :
  embedding_model self = None -> (forall mdl, SentenceTransformer <> Return mdl) ->
  _init_embedding_model self = Build (api_docs self) None (embedding_cache self).
Proof.
  intros Hm Hl. unfold _init_embedding_model. rewrite Hm.
  destruct SentenceTransformer as [mdl|x]; [by destruct (Hl mdl)|done].
Qed.

Lemma load_unfold self json_files :
  load_knowledge_base self json_files
  = let docs := (fun d : APIDocEntry => set_embedding d None) <$> entries_read json_files in
    match docs with
    | [] => Build [] (embedding_model self) (embedding_cache self)
    | _ => _precompute_embeddings (Build docs (embedding_model self) (embedding_cache self))
    end.
Proof.
  unfold load_knowledge_base. rewrite loaded_entries. simpl.
  by destruct (_ <$> entries_read json_files).
Qed.

Lemma precompute_embeddings_entries self :
  Forall2 same_entry (api_docs self) (api_docs (_precompute_embeddings self)).
Proof.
  rewrite precompute_embeddings_unfold.
  destruct (embedding_model (_init_embedding_model self)) as [mdl|]; simpl.
  - apply precompute_loop_length.
  - destruct (init_model_frame self) as [-> _].
    apply Forall_Forall2_diag, Forall_forall. by intros d _.
Qed.


Lemma reset_entries (l : list APIDocEntry) :
  Forall2 same_entry l ((fun d : APIDocEntry => set_embedding d None) <$> l)
  /\ Forall (fun d : APIDocEntry => embedding d = None)
            ((fun d : APIDocEntry => set_embedding d None) <$> l).
Proof.
  split.
  - apply Forall2_fmap_r, Forall_Forall2_diag, Forall_forall. by intros d _.
  - apply Forall_fmap, Forall_forall. by intros d _.
Qed.

Lemma precompute_loop_missing mdl docs ec :
  Forall2 (fun d d' =>
             embedding d = None -> embedding d' = None ->
             exists x, encode mdl (combined_text d) = Raise x)
          docs (precompute_loop mdl docs ec).1.
Proof.
  revert ec. induction docs as [|d docs IH]; intros ec; simpl; [constructor|].
  fold (combined_text d).
  destruct (EmbeddingCache.get ec (combined_text d)) as [c|] eqn:Hg.
  - specialize (IH ec). destruct (precompute_loop mdl docs ec) as [docs' ec']. simpl in *.
    constructor; [|done]. intros _ He. discriminate He.
  - destruct (encode mdl (combined_text d)) as [e|x] eqn:Hen.
    + specialize (IH (EmbeddingCache.set ec (combined_text d) e)).
      destruct (precompute_loop mdl docs _) as [docs' ec']. simpl in *.
      constructor; [|done]. intros _ He. discriminate He.
    + specialize (IH ec). destruct (precompute_loop mdl docs ec) as [docs' ec']. simpl in *.
      constructor; [|done]. intros _ _. by exists x.
Qed.

Lemma precompute_embeddings_missing self mdl :
  embedding_model (_precompute_embeddings self) = Some mdl ->
  Forall2 (fun d d' =>
             same_entry d d'
             /\ (forall e, EmbeddingCache.get (embedding_cache self) (combined_text d) = Some e ->
                   embedding d' = Some e)
             /\ (embedding d = None -> embedding d' = None ->
                 exists x, encode mdl (combined_text d) = Raise x))
          (api_docs self) (api_docs (_precompute_embeddings self)).
Proof.
  rewrite precompute_embeddings_unfold.
  destruct (embedding_model (_init_embedding_model self)) as [mdl'|] eqn:Hm.
  - simpl. intros [= <-].
    eapply Forall2_impl;
      [exact (Forall2_conj
                (Forall2_conj (precompute_loop_length mdl' (api_docs self) (embedding_cache self))
                   (precompute_loop_coherent mdl' (api_docs self) (embedding_cache self)))
                (precompute_loop_missing mdl' (api_docs self) (embedding_cache self)))|].
    intros d d' [[Hsame [_ Hhit]] Hmiss]. done.
  - intros Hm'. by rewrite Hm in Hm'.
Qed.

End Props.

(** X5: the loaded documents are the entries of the files that parse,
    file after file and entry after entry up to the first bad entry of a
    file, each unchanged but for its embedding; a file that fails to load
    is skipped without ending the load. *)
Theorem load_keeps_the_entries_in_order {ndarray Model : Type} {L : Libs ndarray Model}
    (self : RAGManager.t ndarray Model)
    (json_files : list (result (list (result (RAGManager.APIDocEntry ndarray))))) :
  Forall2 same_entry (entries_read json_files)
          (api_docs (load_knowledge_base self json_files))
  /\ api_name <$> api_docs (load_knowledge_base self json_files)
     = api_name <$> entries_read json_files.
Proof.
  assert (HF : Forall2 same_entry (entries_read json_files)
                 (api_docs (load_knowledge_base self json_files))).
  { rewrite load_unfold. cbv zeta.
    destruct (reset_entries (entries_read json_files)) as [Hreset _].
    destruct (_ <$> entries_read json_files) as [|d0 ds]; [done|].
    eapply Forall2_trans; [|exact Hreset|
      exact (precompute_embeddings_entries
               (Build (d0 :: ds) (embedding_model self) (embedding_cache self)))].
    unfold same_entry. congruence. }
  split; [exact HF|]. symmetry.
  induction HF as [|a b l k Hab HF IH]; [done|]. simpl. f_equal; [|done].
  unfold same_entry, set_embedding in Hab. by injection Hab.
Qed.



(** X7: a load never removes or changes an entry of the embedding
    cache; and when it ends with a model and at least one document, the
    cache file holds the whole mapping, written at least once more. *)
Theorem load_extends_and_saves_the_cache {ndarray Model : Type} {L : Libs ndarray Model}
    (self : RAGManager.t ndarray Model)
    (json_files : list (result (list (result (RAGManager.APIDocEntry ndarray))))) :
  let before := embedding_cache self in
  let after := embedding_cache (load_knowledge_base self json_files) in
  EmbeddingCache.cache before ⊆ EmbeddingCache.cache after
  /\ (embedding_model (load_knowledge_base self json_files) <> None ->
      entries_read json_files <> [] ->
      EmbeddingCache.cache_file after = Some (Return (EmbeddingCache.cache after))
      /\ unpersisted after = ∅
      /\ EmbeddingCache.dumps before < EmbeddingCache.dumps after).
Proof.
  cbv zeta. rewrite load_unfold. cbv zeta.
  destruct (_ <$> entries_read json_files) as [|d0 ds] eqn:Hd.
  { split; [done|]. intros _ Hne. apply fmap_nil_inv in Hd. by destruct Hne. }
  set (self0 := Build (d0 :: ds) (embedding_model self) (embedding_cache self)).
  rewrite precompute_embeddings_unfold.
  destruct (embedding_model (_init_embedding_model self0)) as [mdl|] eqn:Hm.
  - pose proof (precompute_loop_cache mdl (d0 :: ds) (embedding_cache self)) as Hsub.
    pose proof (precompute_loop_dumps mdl (d0 :: ds) (embedding_cache self)) as Hdumps.
    change (api_docs self0) with (d0 :: ds).
    change (embedding_cache self0) with (embedding_cache self).
    destruct (precompute_loop mdl (d0 :: ds) (embedding_cache self)) as [docs' ec'].
    simpl in *. split; [done|]. intros _ _. split; [done|]. split; [|lia].
    unfold unpersisted, durable_keys. simpl. apply difference_diag_L.
  - destruct (init_model_frame self0) as [_ Hc]. rewrite Hc. simpl.
    split; [done|]. intros Hne. by rewrite Hm in Hne.
Qed.

Lemma load_extends_and_saves_the_cache_witness :
  unpersisted (embedding_cache Demo.loaded) = ∅.
Proof.
  refine (proj1 (proj2 (proj2 (load_extends_and_saves_the_cache (L := Demo.up) Demo.fresh
            [Return [Return Demo.estimator_run; Return Demo.backend_run]]) _ _)));
    vm_compute; discriminate.
Defined.

(** X8: when the model cannot be loaded, a load gives the documents no
    embedding, also for texts that the cache holds, and leaves the cache
    and its files as they were; the semantic strategy then has no
    candidate. *)
Theorem load_without_model {ndarray Model : Type} {L : Libs ndarray Model}
    (self : RAGManager.t ndarray Model)
    (json_files : list (result (list (result (RAGManager.APIDocEntry ndarray)))))
    (query : string) (top_k : Z) :
  embedding_model self = None ->
  (forall mdl, SentenceTransformer <> Return mdl) ->
  let after := load_knowledge_base self json_files in
  api_docs after = (fun d => set_embedding d None) <$> entries_read json_files
  /\ embedding_cache after = embedding_cache self
  /\ embedding_model after = None
  /\ (_semantic_search after query top_k).2 = [].
Proof.
  intros Hm Hl. cbv zeta.
  assert (Hafter : load_knowledge_base self json_files
                   = Build ((fun d => set_embedding d None) <$> entries_read json_files)
                           None (embedding_cache self)).
  { rewrite load_unfold. cbv zeta.
    destruct (_ <$> entries_read json_files) as [|d0 ds]; [by rewrite Hm|].
    rewrite precompute_embeddings_unfold, init_model_None by done. done. }
  rewrite Hafter. simpl. repeat split.
  by apply semantic_search_unavailable.
Qed.

Lemma load_without_model_witness :
  embedding <$> api_docs Demo.degraded = [None; None; None]
  /\ embedding_cache Demo.degraded = embedding_cache Demo.fresh.
Proof.
  destruct (load_without_model (L := Demo.down) Demo.fresh [Return (Return <$> Demo.corpus)]
              "estimator" 5) as (Hd & Hc & _).
  - reflexivity.
  - intros mdl. vm_compute. discriminate.
  - split; [|exact Hc].
    change (load_knowledge_base (L := Demo.down) Demo.fresh [Return (Return <$> Demo.corpus)])
      with Demo.degraded in Hd.
    rewrite Hd. vm_compute. reflexivity.
Defined.

(** X9: with the model loaded, a failure of [encode] costs one
    document its embedding and nothing else: a loaded document is without
    an embedding only if the cache held no vector for its text and
    [encode] raised on it, so every document that [encode] accepts has
    one. *)
Theorem only_encode_failures_leave_a_document_without_embedding
    {ndarray Model : Type} {L : Libs ndarray Model}
    (self : RAGManager.t ndarray Model)
    (json_files : list (result (list (result (RAGManager.APIDocEntry ndarray)))))
    (mdl : Model) (d : RAGManager.APIDocEntry ndarray) :
  embedding_model (load_knowledge_base self json_files) = Some mdl ->
  d ∈ api_docs (load_knowledge_base self json_files) ->
  (embedding d = None ->
   EmbeddingCache.get (embedding_cache self) (combined_text d) = None
   /\ exists x, encode mdl (combined_text d) = Raise x)
  /\ (forall e, encode mdl (combined_text d) = Return e -> is_Some (embedding d)).
Proof.
  rewrite load_unfold. cbv zeta.
  destruct (reset_entries (entries_read json_files)) as [_ Hnone].
  destruct (_ <$> entries_read json_files) as [|d0 ds].
  { intros _ Hin. by apply elem_of_nil in Hin. }
  set (self0 := Build (d0 :: ds) (embedding_model self) (embedding_cache self)).
  intros Hm Hin.
  destruct (Forall2_elem_r _ _ _ _ (precompute_embeddings_missing self0 mdl Hm) Hin)
    as (d1 & Hd1 & Hsame & Hhit & Hmiss).
  rewrite Forall_forall in Hnone. specialize (Hnone d1 Hd1).
  rewrite <- (same_entry_text _ _ Hsame).
  assert (Hraise : embedding d = None ->
            EmbeddingCache.get (embedding_cache self) (combined_text d1) = None
            /\ exists x, encode mdl (combined_text d1) = Raise x).
  { intros He. split; [|by apply Hmiss].
    destruct (EmbeddingCache.get (embedding_cache self) (combined_text d1)) as [e|] eqn:Hg;
      [|done].
    specialize (Hhit e Hg). congruence. }
  split; [exact Hraise|]. intros e Hen.
  destruct (embedding d) as [e'|] eqn:He; [by eexists|].
  destruct (Hraise eq_refl) as [_ [x Hx]]. congruence.
Qed.

Lemma only_encode_failures_leave_a_document_without_embedding_witness :
  is_Some (embedding (set_embedding Demo.estimator_run
                        (Some [ListLibs.f32 1; ListLibs.f32 0]))).
Proof.
  assert (Hdocs : api_docs Demo.loaded
                  = [set_embedding Demo.estimator_run (Some [ListLibs.f32 1; ListLibs.f32 0]);
                     set_embedding Demo.backend_run (Some [ListLibs.f32 1; ListLibs.f32 1])])
    by (vm_compute; reflexivity).
  refine (proj2 (only_encode_failures_leave_a_document_without_embedding (L := Demo.up)
                   Demo.fresh [Return [Return Demo.estimator_run; Return Demo.backend_run]]
                   Demo.table
                   (set_embedding Demo.estimator_run (Some [ListLibs.f32 1; ListLibs.f32 0]))
                   _ _) [ListLibs.f32 1; ListLibs.f32 0] _).
  - vm_compute. reflexivity.
  - change (load_knowledge_base (L := Demo.up) Demo.fresh
              [Return [Return Demo.estimator_run; Return Demo.backend_run]])
      with Demo.loaded.
    rewrite Hdocs. left.
  - vm_compute. reflexivity.
Defined.

End LoaderProps.

(** ** Lookups and statistics *)

Module LookupProps.
Import Py RAGManager SearchFacts.
Local Open Scope string_scope.
Local Open Scope list_scope.

Section Props.
Context {ndarray Model : Type}.
Local Abbreviation APIDocEntry := (RAGManager.APIDocEntry ndarray).
Local Abbreviation t := (RAGManager.t ndarray Model).
Implicit Types (self : t) (d : APIDocEntry) (docs : list APIDocEntry) (n lib : string).

Lemma get_api_by_name_in_None docs n :
  get_api_by_name_in docs n = None <-> n ∉ api_name <$> docs.
Proof.
  induction docs as [|x docs IH]; simpl.
  - split; [intros _ ?%elem_of_nil|]; done.
  - rewrite not_elem_of_cons. destruct (String.eqb_spec (api_name x) n) as [Hn|Hn].
    + split; [done|]. by intros [? _].
    + rewrite IH. split; [by split|by intros [_ ?]].
Qed.

Lemma get_api_by_name_in_first docs n d :
  get_api_by_name_in docs n = Some d
  <-> exists l1 l2, docs = l1 ++ d :: l2 /\ api_name d = n /\ n ∉ api_name <$> l1.
Proof.
  induction docs as [|x docs IH]; simpl.
  - split; [done|]. intros (l1 & l2 & Hl & _). by destruct l1.
  - destruct (String.eqb_spec (api_name x) n) as [Hn|Hn].
    + split.
      * intros [= <-]. exists [], docs. split; [done|]. split; [done|]. by intros ?%elem_of_nil.
      * intros (l1 & l2 & Hl & Hd & Hnot). destruct l1 as [|y l1]; simpl in Hl.
        -- by injection Hl as <- _.
        -- injection Hl as <- _. destruct Hnot. rewrite fmap_cons, Hn. left.
    + rewrite IH. split.
      * intros (l1 & l2 & -> & Hd & Hnot). exists (x :: l1), l2.
        split; [done|]. split; [done|]. rewrite fmap_cons, not_elem_of_cons. by split.
      * intros (l1 & l2 & Hl & Hd & Hnot). destruct l1 as [|y l1]; simpl in Hl.
        -- injection Hl as -> _. by destruct Hn.
        -- injection Hl as <- ->. exists l1, l2. split; [done|]. split; [done|].
           rewrite fmap_cons, not_elem_of_cons in Hnot. by destruct Hnot.
Qed.

(** One step of the loop of [get_statistics]. *)
Lemma count_libraries_snoc docs d :
  count_libraries (docs ++ [d])
  = <[library d := (default 0 (count_libraries docs !! library d) + 1)%Z]>
      (count_libraries docs).
Proof.
  unfold count_libraries. rewrite foldl_app. simpl.
  set (libs := foldl _ ∅ docs).
  destruct (libs !! library d) as [k|] eqn:Hk; simpl.
  - apply map_eq. intros i. rewrite lookup_alter, lookup_insert.
    destruct (decide (library d = i)) as [<-|]; [by rewrite Hk|done].
  - by rewrite alter_insert_eq.
Qed.

Lemma count_libraries_lookup docs lib :
  count_libraries docs !! lib
  = let k := length (filter (fun d => library d = lib) docs) in
    if decide (k = 0%nat) then None else Some (Z.of_nat k).
Proof.
  induction docs as [|d docs IH] using rev_ind; [done|].
  rewrite count_libraries_snoc, filter_app, length_app, filter_cons, filter_nil.
  cbv zeta in *. rewrite lookup_insert.
  destruct (decide (library d = lib)) as [->|Hne]; simpl.
  - rewrite IH.
    destruct (decide (length (filter (fun d0 => library d0 = lib) docs) + 1 = 0)%nat);
      [lia|].
    destruct (decide (length (filter (fun d0 => library d0 = lib) docs) = 0%nat)) as [->|];
      simpl; f_equal; lia.
  - rewrite IH. by rewrite Nat.add_0_r.
Qed.

Lemma count_libraries_sum docs :
  map_fold (fun _ k acc => (k + acc)%Z) 0%Z (count_libraries docs)
  = Z.of_nat (length docs).
Proof.
  induction docs as [|d docs IH] using rev_ind; [done|].
  rewrite count_libraries_snoc, length_app. simpl.
  assert (Hcomm : forall (m : gmap string Z) (j1 j2 : string) (z1 z2 y : Z),
            j1 <> j2 -> m !! j1 = Some z1 -> m !! j2 = Some z2 ->
            (z1 + (z2 + y) = z2 + (z1 + y))%Z) by (intros; lia).
  destruct (count_libraries docs !! library d) as [k|] eqn:Hk; simpl.
  - rewrite <- insert_delete_eq.
    rewrite map_fold_insert_L; [|by eauto|by rewrite lookup_delete_eq].
    rewrite (map_fold_delete_L _ _ (library d) k) in IH; [|by eauto|done]. lia.
  - rewrite map_fold_insert_L; [|by eauto|done]. lia.
Qed.

End Props.

(** X10: exact lookup returns the first document with the name, in load
    order, so a later document with the same name is never returned, and
    it returns nothing exactly when no document has the name. *)
Theorem get_api_by_name_returns_first_match {ndarray Model : Type}
    (self : RAGManager.t ndarray Model) (n : string) :
  (get_api_by_name self n = None <-> n ∉ api_name <$> api_docs self)
  /\ (forall d, get_api_by_name self n = Some d
      <-> exists before after,
            api_docs self = before ++ d :: after
            /\ api_name d = n /\ n ∉ api_name <$> before).
Proof.
  split; [apply get_api_by_name_in_None|]. intros d. apply get_api_by_name_in_first.
Qed.

(** X11: the statistics agree with the lookups: a library is listed
    exactly when some document has it, its count is the number of
    documents that [get_apis_by_library] returns for it, and the counts
    add up to [total_apis]. *)
Theorem statistics_count_the_libraries {ndarray Model : Type}
    (self : RAGManager.t ndarray Model) (lib : string) :
  let stats := get_statistics self in
  (libraries stats !! lib = None <-> get_apis_by_library self lib = [])
  /\ (forall k, libraries stats !! lib = Some k ->
      k = Z.of_nat (length (get_apis_by_library self lib)) /\ (0 < k)%Z)
  /\ map_fold (fun _ k acc => (k + acc)%Z) 0%Z (libraries stats) = total_apis stats
  /\ total_apis stats = Z.of_nat (length (api_docs self)).
Proof.
  cbv zeta. unfold get_statistics, get_apis_by_library. simpl.
  rewrite count_libraries_lookup. cbv zeta.
  split; [|split; [|split; [apply count_libraries_sum|done]]].
  - destruct (decide _) as [Hz|Hnz].
    + split; [|done]. intros _. by apply nil_length_inv.
    + split; [done|]. intros Hnil. by rewrite Hnil in Hnz.
  - intros k. destruct (decide _) as [Hz|Hnz]; [done|]. intros [= <-]. split; [done|lia].
Qed.

Lemma statistics_count_the_libraries_witness :
  libraries (get_statistics Demo.degraded) !! "qiskit" = Some 3%Z
  /\ length (get_apis_by_library Demo.degraded "qiskit") = 3%nat.
Proof.
  assert (Hs : libraries (get_statistics Demo.degraded) !! "qiskit" = Some 3%Z)
    by (vm_compute; reflexivity).
  split; [exact Hs|].
  destruct (statistics_count_the_libraries Demo.degraded "qiskit") as (_ & Hk & _).
  destruct (Hk 3%Z Hs) as [Hlen _]. lia.
Defined.

End LookupProps.

(** ** The keyword and context strategies *)

Module StrategyFacts.
Import Py PyFacts RAGManager Fusion Candidates FusionFacts SearchFacts StrFacts DivFacts.
Local Open Scope string_scope.
Local Open Scope list_scope.

Section Facts.
Context {ndarray Model : Type} {L : Libs ndarray Model}.
Local Abbreviation APIDocEntry := (RAGManager.APIDocEntry ndarray).
Local Abbreviation SearchResult := (RAGManager.SearchResult ndarray).
Local Abbreviation t := (RAGManager.t ndarray Model).
Implicit Types (self : t) (d : APIDocEntry) (docs : list APIDocEntry).
Implicit Types (r : SearchResult) (results rs l : list SearchResult).
Implicit Types (m : float) (top_k k : Z) (query : string) (qs : gset string).

Lemma keyword_matches_pos_size qs text nm :
  (0 < keyword_matches qs text nm)%Z -> size qs <> 0%nat.
Proof.
  intros Hpos Hz. apply size_empty_inv in Hz. apply leibniz_equiv in Hz. subst qs.
  rewrite keyword_matches_empty in Hpos. lia.
Qed.

Lemma keyword_loop_candidates qs docs results :
  keyword_loop qs docs results = Return (results ++ omap (keyword_candidate qs) docs).
Proof.
  revert results. induction docs as [|d docs IH]; intros results; simpl.
  - by rewrite app_nil_r.
  - unfold keyword_candidate at 1. fold (search_text d).
    destruct (Z.ltb_spec 0 (keyword_matches qs (search_text d) (lower (api_name d))))
      as [Hpos|Hle]; [|apply IH].
    unfold int_truediv.
    destruct (Z.eqb_spec (Z.of_nat (size qs)) 0) as [Hz|Hnz].
    + apply keyword_matches_pos_size in Hpos. lia.
    + simpl. rewrite IH. by rewrite <- app_assoc.
Qed.

Lemma context_loop_candidates query_lower docs results :
  split query_lower <> [] ->
  context_loop query_lower docs results
  = Return (results ++ omap (context_candidate query_lower) docs).
Proof.
  intros Hq. revert results. induction docs as [|d docs IH]; intros results; simpl.
  - by rewrite app_nil_r.
  - unfold context_candidate at 1. cbv zeta.
    destruct (_ || _); [|apply IH].
    unfold int_truediv.
    destruct (Z.eqb_spec (Z.of_nat (length (split query_lower))) 0) as [Hz|Hnz].
    + destruct (split query_lower); [done|simpl in Hz; lia].
    + simpl. rewrite IH. by rewrite <- app_assoc.
Qed.

(** The count of the loop over the query words: one for each word in
    the text, one more for each of them in the name. *)
Lemma keyword_matches_count (ws : list string) (text nm : string) (acc : Z) :
  foldl (fun matches word =>
           if contains word text then
             if contains word nm then matches + 1 + 1 else matches + 1
           else matches)%Z acc ws
  = (acc + Z.of_nat (occurrences ws text)
     + Z.of_nat (length (filter (fun w => contains w text && contains w nm) ws)))%Z.
Proof.
  unfold occurrences. revert acc. induction ws as [|w ws IH]; intros acc; simpl; [lia|].
  rewrite IH, !filter_cons.
  destruct (contains w text); simpl; [|lia].
  destruct (contains w nm); simpl; lia.
Qed.

Lemma name_in_search_text d w :
  contains w (lower (api_name d)) = true -> contains w (search_text d) = true.
Proof.
  intros Hn. unfold search_text. rewrite lower_app. by apply contains_app_l.
Qed.

Lemma keyword_matches_occurrences qs d :
  keyword_matches qs (search_text d) (lower (api_name d))
  = Z.of_nat (occurrences (elements qs) (search_text d)
              + occurrences (elements qs) (lower (api_name d))).
Proof.
  unfold keyword_matches. rewrite keyword_matches_count.
  assert (Hf : filter (fun w => contains w (search_text d) && contains w (lower (api_name d)))
                 (elements qs)
               = filter (fun w => contains w (lower (api_name d))) (elements qs)).
  { apply list_filter_iff. intros w.
    destruct (contains w (lower (api_name d))) eqn:Hn.
    - by rewrite (name_in_search_text d w Hn).
    - by rewrite andb_false_r. }
  rewrite Hf. unfold occurrences. lia.
Qed.

Lemma occurrences_le (ws : list string) (text : string) :
  (occurrences ws text <= length ws)%nat.
Proof. unfold occurrences. apply length_filter. Qed.

Lemma occurrences_name_le qs d :
  (occurrences (elements qs) (lower (api_name d))
   <= occurrences (elements qs) (search_text d))%nat.
Proof.
  unfold occurrences. induction (elements qs) as [|w ws IH]; [done|].
  rewrite !filter_cons.
  destruct (contains w (lower (api_name d))) eqn:Hn; simpl.
  - rewrite (name_in_search_text d w Hn). simpl. lia.
  - destruct (contains w (search_text d)); simpl; lia.
Qed.

Lemma size_list_to_set_le (ws : list string) :
  (size (list_to_set ws : gset string) <= length ws)%nat.
Proof.
  induction ws as [|w ws IH]; [by rewrite list_to_set_nil, size_empty|].
  rewrite list_to_set_cons, size_union_alt, size_singleton. simpl.
  apply le_n_S. etrans; [|exact IH]. apply subseteq_size.
  intros x Hx. by apply elem_of_difference in Hx as [? _].
Qed.

Lemma omap_elem {A B} (f : A -> option B) (l : list A) (y : B) :
  y ∈ omap f l <-> exists x, x ∈ l /\ f x = Some y.
Proof. apply list_elem_of_omap. Qed.

Lemma sliced_sorted_elem (rs : list SearchResult) k r :
  r ∈ slice_to (sort_desc similarity_score rs) k -> r ∈ rs.
Proof.
  destruct (slice_to_take (sort_desc similarity_score rs) k) as [n ->].
  intros Hr%(subseteq_take n). by rewrite sort_desc_perm in Hr.
Qed.

Lemma sliced_arranged_elem (rs : list SearchResult) k r :
  r ∈ slice_to (list_sort_reverse sort_order similarity_score rs) k -> r ∈ rs.
Proof.
  destruct (slice_to_take (list_sort_reverse sort_order similarity_score rs) k) as [n ->].
  intros Hr%(subseteq_take n). by rewrite list_sort_reverse_perm in Hr.
Qed.

Lemma slice_to_all {A} (l : list A) k :
  (Z.of_nat (length l) <= k)%Z -> slice_to l k = l.
Proof.
  intros Hk. unfold slice_to. destruct (Z.leb_spec 0 k); [|lia].
  apply take_ge. lia.
Qed.

Lemma semantic_loop_elem query_embedding docs results out r :
  semantic_loop query_embedding docs results = Return out -> r ∈ out ->
  r ∈ results
  \/ (api_doc r ∈ docs /\ match_type r = "semantic" /\ is_Some (embedding (api_doc r))).
Proof.
  revert results. induction docs as [|d docs IH]; intros results; simpl.
  - intros [= <-]. by left.
  - destruct (embedding d) as [e|] eqn:He.
    + destruct (np_dot query_embedding e) as [dot|]; [|done]. simpl.
      intros Hout Hr. destruct (IH _ Hout Hr) as [Hin|(Hd & Ht & Hs)].
      * apply elem_of_app in Hin as [Hin|Hin]; [by left|].
        apply list_elem_of_singleton in Hin as ->.
        right. simpl. split; [left|]. by rewrite He.
      * right. split; [by right|done].
    + intros Hout Hr. destruct (IH _ Hout Hr) as [Hin|(Hd & Ht & Hs)]; [by left|].
      right. split; [by right|done].
Qed.

Lemma semantic_search_elem self query top_k r :
  r ∈ (_semantic_search self query top_k).2 ->
  api_doc r ∈ api_docs self /\ match_type r = "semantic"
  /\ is_Some (embedding (api_doc r)).
Proof.
  unfold _semantic_search. destruct (init_model_frame self) as [Hd _].
  destruct (embedding_model (_init_embedding_model self)) as [mdl|];
    [|by intros ?%elem_of_nil].
  destruct (encode mdl query) as [q|]; simpl; [|by intros ?%elem_of_nil].
  destruct (semantic_loop q (api_docs (_init_embedding_model self)) []) as [out|] eqn:Hl;
    simpl; [|by intros ?%elem_of_nil].
  intros Hr%sliced_arranged_elem.
  destruct (semantic_loop_elem _ _ _ _ _ Hl Hr) as [Hin|Hin]; [by apply elem_of_nil in Hin|].
  by rewrite Hd in Hin.
Qed.

Lemma keyword_candidate_Some qs d r :
  keyword_candidate qs d = Some r ->
  api_doc r = d /\ match_type r = "keyword"
  /\ similarity_score r
     = float_div (int_as_binary (Z.of_nat (occurrences (elements qs) (search_text d)
                                           + occurrences (elements qs) (lower (api_name d)))))
                 (int_as_binary (Z.of_nat (size qs)))
  /\ (1 <= occurrences (elements qs) (search_text d))%nat
  /\ is_nan (similarity_score r) = false.
Proof.
  unfold keyword_candidate. cbv zeta. rewrite keyword_matches_occurrences.
  destruct (Z.ltb_spec 0 (Z.of_nat (occurrences (elements qs) (search_text d)
                                    + occurrences (elements qs) (lower (api_name d)))))
    as [Hpos|Hle]; [|done].
  intros [= <-]. simpl. split; [done|]. split; [done|]. split; [done|].
  pose proof (occurrences_name_le qs d) as Hn.
  pose proof (occurrences_le (elements qs) (search_text d)) as Ht.
  unfold size, set_size in *. simpl in *.
  split; [lia|].
  destruct (int_truediv_number
              (Z.of_nat (occurrences (elements qs) (search_text d)
                         + occurrences (elements qs) (lower (api_name d))))
              (Z.of_nat (length (elements qs))) ltac:(lia) ltac:(lia)) as (x & Hx & Hnan).
  unfold int_truediv in Hx. destruct (_ =? 0)%Z; [done|]. by injection Hx as <-.
Qed.

Lemma context_candidate_Some query_lower d r :
  split query_lower <> [] ->
  context_candidate query_lower d = Some r ->
  api_doc r = d /\ match_type r = "context"
  /\ is_nan (similarity_score r) = false.
Proof.
  intros Hq. unfold context_candidate. cbv zeta. destruct (_ || _); [|done].
  intros [= <-]. simpl. split; [done|]. split; [done|].
  destruct (int_truediv_number
              (Z.of_nat (size (list_to_set (split query_lower)
                               ∩ list_to_set (split (lower (usage_context d))) : gset string)))
              (Z.of_nat (length (split query_lower))) ltac:(lia)) as (x & Hx & Hnan).
  { destruct (split query_lower); [done|simpl; lia]. }
  unfold int_truediv in Hx. destruct (_ =? 0)%Z; [done|]. by injection Hx as <-.
Qed.

End Facts.
End StrategyFacts.

Module RankingFacts.
Import Py PyFacts RAGManager Fusion Candidates FusionFacts SearchFacts StrFacts DivFacts StrategyFacts.
Local Open Scope string_scope.
Local Open Scope list_scope.

Section Facts.
Context {ndarray Model : Type} {L : Libs ndarray Model}.
Local Abbreviation APIDocEntry := (RAGManager.APIDocEntry ndarray).
Local Abbreviation SearchResult := (RAGManager.SearchResult ndarray).
Local Abbreviation t := (RAGManager.t ndarray Model).
Implicit Types (self : t) (d : APIDocEntry) (docs : list APIDocEntry).
Implicit Types (r : SearchResult) (results rs l : list SearchResult).
Implicit Types (m : float) (top_k k : Z) (query : string) (qs : gset string).

Lemma keyword_search_candidates self query top_k :
  _keyword_search self query top_k
  = Return (slice_to (sort_desc similarity_score
              (omap (keyword_candidate (list_to_set (split (lower query)))) (api_docs self)))
              top_k).
Proof. unfold _keyword_search. by rewrite keyword_loop_candidates. Qed.

Lemma context_search_candidates self query top_k :
  split (lower query) <> [] ->
  _context_search self query top_k
  = Return (slice_to (sort_desc similarity_score
              (omap (context_candidate (lower query)) (api_docs self))) top_k).
Proof. intros Hq. unfold _context_search. by rewrite context_loop_candidates. Qed.

Lemma context_search_Return self query top_k ctx :
  _context_search self query top_k = Return ctx ->
  ctx = slice_to (sort_desc similarity_score
                    (omap (context_candidate (lower query)) (api_docs self))) top_k
  /\ (split (lower query) <> [] \/ ctx = []).
Proof.
  destruct (split (lower query)) as [|w ws] eqn:Hq.
  - unfold _context_search.
    assert (Hall : forall docs results out,
              context_loop (lower query) docs results = Return out ->
              out = results /\ omap (context_candidate (lower query)) docs = []).
    { induction docs as [|d docs IH]; intros results out; simpl.
      - by intros [= <-].
      - unfold context_candidate at 1. cbv zeta. rewrite Hq. simpl.
        destruct (contains (lower query) (lower (usage_context d))); simpl; [done|].
        apply IH. }
    destruct (context_loop (lower query) (api_docs self) []) as [out|] eqn:Hl; [|done].
    destruct (Hall _ _ _ Hl) as [-> Hnil]. simpl. intros [= <-]. rewrite Hnil. simpl.
    rewrite slice_to_nil. auto.
  - rewrite context_search_candidates by (rewrite Hq; done).
    intros [= <-]. split; [done|]. by left.
Qed.

Lemma omap_names_sublist (f : APIDocEntry -> option SearchResult) docs :
  (forall d r, f d = Some r -> api_doc r = d) ->
  (fun r => api_name (api_doc r)) <$> omap f docs `sublist_of` api_name <$> docs.
Proof.
  intros Hf. induction docs as [|d docs IH]; simpl; [done|].
  destruct (f d) as [r|] eqn:Hr; simpl.
  - rewrite (Hf _ _ Hr). by constructor.
  - by constructor.
Qed.

(** What slicing the sorted candidates keeps of them, when none of their
    scores is NaN. *)
Lemma ranked_candidates (cands : list SearchResult) top_k :
  (0 <= top_k)%Z ->
  Forall (fun r => is_nan (similarity_score r) = false) cands ->
  let out := slice_to (sort_desc similarity_score cands) top_k in
  (Z.of_nat (length out) <= top_k)%Z
  /\ (forall i j a b, (i < j)%nat -> out !! i = Some a -> out !! j = Some b ->
        float_ge (similarity_score a) (similarity_score b) = true)
  /\ (NoDup ((fun r => api_name (api_doc r)) <$> cands) ->
      NoDup ((fun r => api_name (api_doc r)) <$> out)).
Proof.
  intros Hk Hnan out. split; [by apply slice_to_length|]. subst out.
  destruct (slice_to_take (sort_desc similarity_score cands) top_k) as [n ->].
  split.
  - intros i j a b. apply descending_lookup. by apply descending_take, sort_desc_descending.
  - intros Hnd. rewrite fmap_take. eapply sublist_NoDup; [|apply sublist_take].
    by rewrite sort_desc_perm.
Qed.

(** The sorts of [_keyword_search], [_context_search] and [search_apis]
    are on scores that are never NaN: there the interpreter's sort is
    [sort_desc], whatever it does with a NaN. *)
Lemma sorts_without_nan (order : list float -> list nat) qs query_lower docs m rs :
  list_sort_reverse order similarity_score (omap (keyword_candidate qs) docs)
  = sort_desc similarity_score (omap (keyword_candidate qs) docs)
  /\ (split query_lower <> [] ->
      list_sort_reverse order similarity_score (omap (context_candidate query_lower) docs)
      = sort_desc similarity_score (omap (context_candidate query_lower) docs))
  /\ list_sort_reverse order similarity_score (unique_loop m rs ∅ [])
     = sort_desc similarity_score (unique_loop m rs ∅ []).
Proof.
  split; [|split].
  - apply list_sort_reverse_no_nan, Forall_forall.
    intros r (d & _ & Hc)%list_elem_of_omap.
    by apply keyword_candidate_Some in Hc as (_ & _ & _ & _ & Hnan).
  - intros Hq. apply list_sort_reverse_no_nan, Forall_forall.
    intros r (d & _ & Hc)%list_elem_of_omap.
    by apply (context_candidate_Some _ _ _ Hq) in Hc as (_ & _ & Hnan).
  - apply list_sort_reverse_no_nan, Forall_forall. intros r Hr.
    rewrite unique_loop_filter_then_dedup in Hr.
    apply filter_then_dedup_passes in Hr. unfold passes in Hr.
    by apply float_ge_not_nan in Hr as [Hnan _].
Qed.

End Facts.
End RankingFacts.

Module SearchProps.
Import Py PyFacts RAGManager Fusion Candidates FusionFacts SearchFacts.
Import StrFacts DivFacts StrategyFacts RankingFacts.
Local Open Scope string_scope.
Local Open Scope list_scope.

(** X12: a keyword candidate is a loaded document with at least one
    query word in its search text; its score is the number of distinct
    query words found in the search text plus the number found in the
    name, over the number of distinct query words: a word in the name is
    always also in the search text, so it counts twice; at least one
    word is found, and the score is never NaN. *)
Theorem keyword_score_counts_name_matches_twice {ndarray Model : Type}
    (self : RAGManager.t ndarray Model) (query : string) (top_k : Z)
    (kw : list (SearchResult ndarray)) (r : SearchResult ndarray) :
  _keyword_search self query top_k = Return kw ->
  r ∈ kw ->
  let words := elements (list_to_set (split (lower query)) : gset string) in
  let in_text := occurrences words (search_text (api_doc r)) in
  let in_name := occurrences words (lower (api_name (api_doc r))) in
  api_doc r ∈ api_docs self
  /\ match_type r = "keyword"
  /\ similarity_score r
     = float_div (int_as_binary (Z.of_nat (in_text + in_name)))
                 (int_as_binary (Z.of_nat (length words)))
  /\ (1 <= in_text <= length words)%nat
  /\ (in_name <= in_text)%nat
  /\ is_nan (similarity_score r) = false.
Proof.
  rewrite keyword_search_candidates. intros [= <-] Hr%sliced_sorted_elem.
  apply list_elem_of_omap in Hr as (d & Hd & Hc).
  apply keyword_candidate_Some in Hc as (Hdoc & Ht & Hs & H1 & Hnan).
  cbv zeta. rewrite Hdoc. split; [done|]. split; [done|]. split; [exact Hs|].
  split; [|split; [apply occurrences_name_le|done]].
  split; [done|apply occurrences_le].
Qed.

Lemma keyword_score_counts_name_matches_twice_witness :
  similarity_score (Build_SearchResult
     (set_embedding Demo.estimator_run (Some [ListLibs.f32 1; ListLibs.f32 0]))
     (ListLibs.f64 2 0) "keyword")
  = float_div (int_as_binary 2) (int_as_binary 1).
Proof.
  assert (Hkw : _keyword_search Demo.loaded "estimator" 5 = Return Demo.kw_estimator)
    by (vm_compute; reflexivity).
  assert (Hin : Build_SearchResult
     (set_embedding Demo.estimator_run (Some [ListLibs.f32 1; ListLibs.f32 0]))
     (ListLibs.f64 2 0) "keyword" ∈ Demo.kw_estimator) by left.
  destruct (keyword_score_counts_name_matches_twice Demo.loaded "estimator" 5
              Demo.kw_estimator _ Hkw Hin) as (_ & _ & Hs & _).
  rewrite Hs. vm_compute. reflexivity.
Defined.

(** X13: a context candidate is a loaded document; its score is the
    number of distinct tokens that the query and the usage context share,
    over the number of query tokens counted with repetitions, so it is at
    most 1, can be 0, and is never NaN. *)
Theorem context_score_is_a_shared_token_ratio {ndarray Model : Type}
    (self : RAGManager.t ndarray Model) (query : string) (top_k : Z)
    (ctx : list (SearchResult ndarray)) (r : SearchResult ndarray) :
  _context_search self query top_k = Return ctx ->
  r ∈ ctx ->
  let tokens := split (lower query) in
  let common : gset string :=
    list_to_set tokens ∩ list_to_set (split (lower (usage_context (api_doc r)))) in
  api_doc r ∈ api_docs self
  /\ match_type r = "context"
  /\ similarity_score r
     = float_div (int_as_binary (Z.of_nat (size common)))
                 (int_as_binary (Z.of_nat (length tokens)))
  /\ (size common <= length tokens)%nat
  /\ (1 <= length tokens)%nat
  /\ is_nan (similarity_score r) = false.
Proof.
  intros Hctx Hr. apply context_search_Return in Hctx as [-> Hq].
  destruct Hq as [Hq|Hnil]; [|rewrite Hnil in Hr; by apply elem_of_nil in Hr].
  apply sliced_sorted_elem, list_elem_of_omap in Hr as (d & Hd & Hc).
  pose proof (context_candidate_Some _ _ _ Hq Hc) as (Hdoc & Ht & Hnan).
  cbv zeta. rewrite Hdoc. split; [done|]. split; [done|].
  unfold context_candidate in Hc. cbv zeta in Hc. destruct (_ || _); [|done].
  injection Hc as <-. simpl. split; [done|]. split; [|split; [|done]].
  - etrans; [|apply size_list_to_set_le]. apply subseteq_size.
    intros x Hx. by apply elem_of_intersection in Hx as [? _].
  - destruct (split (lower query)); [done|simpl; lia].
Qed.

Lemma context_score_is_a_shared_token_ratio_witness :
  similarity_score (Build_SearchResult
     (set_embedding Demo.estimator_run None) (ListLibs.f64 1 (-2)) "context")
  = float_div (int_as_binary 1) (int_as_binary 4).
Proof.
  assert (Hctx : _context_search Demo.degraded "expectation zzz qqq xxx" 5
                 = Return Demo.ctx_sparse) by (vm_compute; reflexivity).
  assert (Hin : Build_SearchResult (set_embedding Demo.estimator_run None)
                  (ListLibs.f64 1 (-2)) "context" ∈ Demo.ctx_sparse) by left.
  destruct (context_score_is_a_shared_token_ratio Demo.degraded "expectation zzz qqq xxx" 5
              Demo.ctx_sparse _ Hctx Hin) as (_ & _ & Hs & _).
  rewrite Hs. vm_compute. reflexivity.
Defined.

(** X14: with a non-negative [top_k], the keyword list and the context
    list have at most [top_k] candidates in descending order of score,
    and list no name twice when the corpus has none twice. *)
Theorem keyword_and_context_lists_are_ranked {ndarray Model : Type}
    (self : RAGManager.t ndarray Model) (query : string) (top_k : Z)
    (l : list (SearchResult ndarray)) :
  (0 <= top_k)%Z ->
  _keyword_search self query top_k = Return l
  \/ _context_search self query top_k = Return l ->
  (Z.of_nat (length l) <= top_k)%Z
  /\ (forall i j a b, (i < j)%nat -> l !! i = Some a -> l !! j = Some b ->
        float_ge (similarity_score a) (similarity_score b) = true)
  /\ (NoDup (api_name <$> api_docs self) ->
      NoDup ((fun r => api_name (api_doc r)) <$> l)).
Proof.
  intros Hk [Hkw|Hctx].
  - rewrite keyword_search_candidates in Hkw. injection Hkw as <-.
    destruct (ranked_candidates
                (omap (keyword_candidate (list_to_set (split (lower query)))) (api_docs self))
                top_k Hk) as (Hlen & Hdesc & Hnd).
    { apply Forall_forall. intros r (d & _ & Hc)%list_elem_of_omap.
      by apply keyword_candidate_Some in Hc as (_ & _ & _ & _ & Hnan). }
    split; [done|]. split; [done|]. intros Hdocs. apply Hnd.
    eapply sublist_NoDup; [exact Hdocs|]. apply omap_names_sublist.
    intros d r Hc. by apply keyword_candidate_Some in Hc as (? & _).
  - apply context_search_Return in Hctx as [-> Hq].
    destruct Hq as [Hq|Hnil].
    + destruct (ranked_candidates
                  (omap (context_candidate (lower query)) (api_docs self))
                  top_k Hk) as (Hlen & Hdesc & Hnd).
      { apply Forall_forall. intros r (d & _ & Hc)%list_elem_of_omap.
        by apply (context_candidate_Some _ _ _ Hq) in Hc as (_ & _ & Hnan). }
      split; [done|]. split; [done|]. intros Hdocs. apply Hnd.
      eapply sublist_NoDup; [exact Hdocs|]. apply omap_names_sublist.
      intros d r Hc. by apply (context_candidate_Some _ _ _ Hq) in Hc as (? & _).
    + rewrite Hnil. simpl. split; [lia|]. split; [|intros _; constructor].
      intros i j a b _ Hi. by rewrite lookup_nil in Hi.
Qed.

Lemma keyword_and_context_lists_are_ranked_witness :
  (Z.of_nat (length Demo.kw_sparse) <= 5)%Z.
Proof.
  refine (proj1 (keyword_and_context_lists_are_ranked Demo.degraded
                   "expectation zzz qqq xxx" 5 Demo.kw_sparse _ _)).
  - lia.
  - left. vm_compute. reflexivity.
Defined.

(** X15: the semantic strategy is all or nothing: when [encode] raises
    on the query, or [np_dot] rejects the embedding of a single document,
    no candidate is returned at all, also for the documents whose
    similarity could be computed. *)
Theorem semantic_search_is_all_or_nothing {ndarray Model : Type}
    {L : Libs ndarray Model} (self : RAGManager.t ndarray Model)
    (query : string) (top_k : Z) (mdl : Model) :
  embedding_model (_init_embedding_model self) = Some mdl ->
  (exists x, encode mdl query = Raise x)
  \/ (exists q, encode mdl query = Return q /\ shapes_agree q (api_docs self) = false) ->
  (_semantic_search self query top_k).2 = [].
Proof.
  intros Hm Hfail. unfold _semantic_search. rewrite Hm.
  destruct (init_model_frame self) as [Hd _]. rewrite Hd.
  destruct Hfail as [(x & ->)|(q & -> & Hs)]; [done|]. simpl.
  by destruct (semantic_loop_raises q (api_docs self) [] Hs) as (x & ->).
Qed.

Lemma semantic_search_is_all_or_nothing_witness :
  (_semantic_search (L := Demo.up) Demo.loaded "bitstrings" 10).2 = [].
Proof.
  apply (semantic_search_is_all_or_nothing (L := Demo.up) Demo.loaded "bitstrings" 10 Demo.table).
  - vm_compute. reflexivity.
  - left. exists RuntimeError. vm_compute. reflexivity.
Defined.

End SearchProps.

(** ** The fused search *)

Module ResultProps.
Import Py PyFacts RAGManager Fusion Candidates FusionFacts SearchFacts.
Import StrFacts DivFacts StrategyFacts RankingFacts.
Local Open Scope string_scope.
Local Open Scope list_scope.

Section Facts.
Context {ndarray Model : Type} {L : Libs ndarray Model}.
Local Abbreviation APIDocEntry := (RAGManager.APIDocEntry ndarray).
Local Abbreviation SearchResult := (RAGManager.SearchResult ndarray).
Local Abbreviation t := (RAGManager.t ndarray Model).
Implicit Types (self : t) (d : APIDocEntry) (docs : list APIDocEntry).
Implicit Types (r : SearchResult) (results rs l : list SearchResult).
Implicit Types (m : float) (top_k k : Z) (query : string).

Lemma omap_length_le {A B} (f : A -> option B) (l : list A) :
  (length (omap f l) <= length l)%nat.
Proof.
  induction l as [|x l IH]; [done|]. change (omap f (x :: l)) with
    (match f x with Some y => y :: omap f l | None => omap f l end).
  destruct (f x); simpl; lia.
Qed.

Lemma keyword_search_elem self query top_k kw r :
  _keyword_search self query top_k = Return kw -> r ∈ kw ->
  api_doc r ∈ api_docs self /\ match_type r = "keyword".
Proof.
  rewrite keyword_search_candidates. intros [= <-] Hr%sliced_sorted_elem.
  apply list_elem_of_omap in Hr as (d & Hd & Hc).
  apply keyword_candidate_Some in Hc as (-> & Ht & _). done.
Qed.

Lemma context_search_elem self query top_k ctx r :
  _context_search self query top_k = Return ctx -> r ∈ ctx ->
  api_doc r ∈ api_docs self /\ match_type r = "context".
Proof.
  intros Hctx Hr. apply context_search_Return in Hctx as [-> Hq].
  destruct Hq as [Hq|Hnil]; [|rewrite Hnil in Hr; by apply elem_of_nil in Hr].
  apply sliced_sorted_elem, list_elem_of_omap in Hr as (d & Hd & Hc).
  apply (context_candidate_Some _ _ _ Hq) in Hc as (-> & Ht & _). done.
Qed.

Lemma search_apis_elem self query top_k m out r :
  (search_apis self query top_k m).2 = Return out -> r ∈ out ->
  api_doc r ∈ api_docs self
  /\ match_type r ∈ ["semantic"; "keyword"; "context"]
  /\ (match_type r = "semantic" -> is_Some (embedding (api_doc r))).
Proof.
  rewrite search_apis_fused.
  destruct (_keyword_search self query top_k) as [kw|] eqn:Hkw; [|done].
  destruct (_context_search self query top_k) as [ctx|] eqn:Hctx; [|done].
  simpl. intros [= <-] Hr%fused_elem.
  apply first_seen_elem in Hr as [Hr _]. apply list_elem_of_filter in Hr as [_ Hr].
  apply elem_of_app in Hr as [Hr|Hr].
  - apply semantic_search_elem in Hr as (Hd & Ht & Hs). rewrite Ht.
    split; [done|]. split; [left|done].
  - apply elem_of_app in Hr as [Hr|Hr].
    + destruct (keyword_search_elem _ _ _ _ _ Hkw Hr) as [Hd Ht]. rewrite Ht.
      split; [done|]. split; [right; left|done].
    + destruct (context_search_elem _ _ _ _ _ Hctx Hr) as [Hd Ht]. rewrite Ht.
      split; [done|]. split; [right; right; left|done].
Qed.

End Facts.

(** X16: every result of [search_apis] refers to a loaded document and
    names the strategy it comes from; a semantic result is a document
    that has an embedding. *)
Theorem search_results_are_loaded_documents {ndarray Model : Type}
    {L : Libs ndarray Model} (self : RAGManager.t ndarray Model)
    (query : string) (top_k : Z) (min_similarity : float)
    (out : list (SearchResult ndarray)) (r : SearchResult ndarray) :
  (search_apis self query top_k min_similarity).2 = Return out ->
  r ∈ out ->
  api_doc r ∈ api_docs self
  /\ match_type r ∈ ["semantic"; "keyword"; "context"]
  /\ (match_type r = "semantic" -> is_Some (embedding (api_doc r))).
Proof. apply search_apis_elem. Qed.

Lemma search_results_are_loaded_documents_witness :
  Demo.estimator_run ∈ api_docs Demo.degraded.
Proof.
  assert (Hout : (search_apis (L := Demo.down) Demo.degraded "run" (-1) Demo.f0_3).2
                 = Return [Build_SearchResult Demo.estimator_run (ListLibs.f64 2 0) "keyword"])
    by (vm_compute; reflexivity).
  refine (proj1 (search_results_are_loaded_documents (L := Demo.down) Demo.degraded "run" (-1)
                   Demo.f0_3 _ (Build_SearchResult Demo.estimator_run (ListLibs.f64 2 0) "keyword")
                   Hout _)).
  left.
Defined.

(** X17: the entry point of the agent searches with [top_k = 10] and
    [min_similarity = 0.2]: for a query with at least one token it
    returns at most 10 loaded documents, no name twice; it leaves the
    documents and the cache of the manager as they are. *)
Theorem search_by_description_returns_documents {ndarray Model : Type}
    {L : Libs ndarray Model} (self : RAGManager.t ndarray Model)
    (description : string) :
  split (lower description) <> [] ->
  exists docs,
    (search_by_description_and_keywords self description).2 = Return docs
    /\ (length docs <= 10)%nat
    /\ NoDup (api_name <$> docs)
    /\ (forall d, d ∈ docs -> d ∈ api_docs self)
    /\ api_docs (search_by_description_and_keywords self description).1 = api_docs self
    /\ embedding_cache (search_by_description_and_keywords self description).1
       = embedding_cache self.
Proof.
  intros Hq. unfold search_by_description_and_keywords.
  set (m := binary_normalize f64_prec f64_emax 7205759403792794 (-55) false).
  pose proof (search_apis_fused self description 10 m) as Hf.
  pose proof (fun out r => search_apis_elem self description 10 m out r) as Helem.
  assert (Hframe : api_docs (search_apis self description 10 m).1 = api_docs self
                   /\ embedding_cache (search_apis self description 10 m).1
                      = embedding_cache self).
  { unfold search_apis. destruct (api_docs self) eqn:Hd; [simpl; by rewrite Hd|].
    pose proof (semantic_search_frame self description (10 * 2)) as Hs.
    destruct (_semantic_search self description (10 * 2)) as [self' sem]. simpl in *.
    by rewrite <- Hd. }
  destruct (search_apis self description 10 m) as [self' res]. simpl in *.
  destruct (keyword_search_returns self description 10) as [kw Hkw].
  destruct (context_search_returns self description 10 Hq) as [ctx Hctx].
  rewrite Hkw, Hctx in Hf. simpl in Hf. subst res.
  destruct (fused_contract m 10 ((_semantic_search self description (10 * 2)).2 ++ kw ++ ctx)
              ltac:(lia)) as (Hlen & _ & _ & Hnd).
  eexists. split; [done|]. rewrite length_fmap. split; [lia|].
  split; [by rewrite <- list_fmap_compose|]. split; [|done].
  intros d (r & -> & Hr)%list_elem_of_fmap. by destruct (Helem _ r eq_refl Hr).
Qed.

Lemma search_by_description_returns_documents_witness :
  exists docs,
    (search_by_description_and_keywords (L := Demo.down) Demo.degraded "run").2 = Return docs
    /\ (length docs <= 10)%nat.
Proof.
  destruct (search_by_description_returns_documents (L := Demo.down) Demo.degraded "run")
    as (docs & Hd & Hlen & _).
  - vm_compute. discriminate.
  - exists docs. by split.
Defined.

(** X18: with [top_k] at least the size of the corpus no match is cut:
    a document whose name, description or signature contains a query
    token, ignoring case, is a keyword candidate, and a document whose
    usage context has a token of the query as one of its tokens is a
    context candidate. *)
Theorem no_matching_document_is_cut {ndarray Model : Type}
    (self : RAGManager.t ndarray Model) (query : string) (top_k : Z)
    (d : APIDocEntry ndarray) (w : string) :
  (Z.of_nat (length (api_docs self)) <= top_k)%Z ->
  d ∈ api_docs self ->
  w ∈ split (lower query) ->
  (contains w (search_text d) = true ->
   exists kw r, _keyword_search self query top_k = Return kw /\ r ∈ kw /\ api_doc r = d)
  /\ (w ∈ split (lower (usage_context d)) ->
      exists ctx r, _context_search self query top_k = Return ctx /\ r ∈ ctx /\ api_doc r = d).
Proof.
  intros Hk Hd Hw.
  assert (Hq : split (lower query) <> []) by (intros Hnil; rewrite Hnil in Hw; by apply elem_of_nil in Hw).
  assert (Hall : forall f : APIDocEntry ndarray -> option (SearchResult ndarray),
            slice_to (sort_desc similarity_score (omap f (api_docs self))) top_k
            = sort_desc similarity_score (omap f (api_docs self))).
  { intros f. apply slice_to_all.
    rewrite (Permutation_length (sort_desc_perm similarity_score _)).
    pose proof (omap_length_le f (api_docs self)). lia. }
  split.
  - intros Hc. rewrite keyword_search_candidates, Hall.
    destruct (keyword_candidate (list_to_set (split (lower query))) d) as [r|] eqn:Hcand.
    + eexists; exists r. split; [reflexivity|]. split.
      * rewrite sort_desc_perm. apply list_elem_of_omap. eauto.
      * by apply keyword_candidate_Some in Hcand as (? & _).
    + exfalso. unfold keyword_candidate in Hcand. cbv zeta in Hcand.
      rewrite keyword_matches_occurrences in Hcand.
      destruct (Z.ltb_spec 0 (Z.of_nat
                  (occurrences (elements (list_to_set (split (lower query)) : gset string))
                               (search_text d)
                   + occurrences (elements (list_to_set (split (lower query)) : gset string))
                                 (lower (api_name d))))) as [Hpos|Hle]; [done|].
      assert (Hin : w ∈ filter (fun w => contains w (search_text d))
                        (elements (list_to_set (split (lower query)) : gset string))).
      { apply list_elem_of_filter. split; [by rewrite Hc|].
        apply elem_of_elements, elem_of_list_to_set. done. }
      unfold occurrences in Hle. destruct (filter _ _); [by apply elem_of_nil in Hin|].
      simpl in Hle. lia.
  - intros Hc. rewrite context_search_candidates, Hall by done.
    destruct (context_candidate (lower query) d) as [r|] eqn:Hcand.
    + eexists; exists r. split; [reflexivity|]. split.
      * rewrite sort_desc_perm. apply list_elem_of_omap. eauto.
      * by apply (context_candidate_Some _ _ _ Hq) in Hcand as (? & _).
    + exfalso. unfold context_candidate in Hcand. cbv zeta in Hcand.
      assert (Hex : existsb (fun word => contains word (lower (usage_context d)))
                      (split (lower query)) = true).
      { apply existsb_exists. exists w. split; [by apply list_elem_of_In|].
        by apply split_contains. }
      rewrite Hex, orb_true_r in Hcand. done.
Qed.

Lemma no_matching_document_is_cut_witness :
  exists ctx r, _context_search Demo.degraded "expectation values" 5 = Return ctx
                /\ r ∈ ctx /\ api_doc r = Demo.estimator_run.
Proof.
  refine (proj2 (no_matching_document_is_cut Demo.degraded "expectation values" 5
                   Demo.estimator_run "expectation" _ _ _) _).
  - vm_compute. discriminate.
  - left.
  - apply (bool_decide_unpack _). vm_compute. exact I.
  - apply (bool_decide_unpack _). vm_compute. exact I.
Defined.

(** X19: the keyword and the context strategy ignore the case of the
    query: two queries that are equal once lowercased, such as a query
    and its lowercased form, give the same outcome; so does all of
    [search_apis] when no model can be loaded, the semantic strategy
    being the only one that reads the query as it is written. *)
Theorem query_case_is_ignored {ndarray Model : Type} {L : Libs ndarray Model}
    (self : RAGManager.t ndarray Model) (query1 query2 : string) (top_k : Z)
    (min_similarity : float) :
  lower query1 = lower query2 ->
  _keyword_search self query1 top_k = _keyword_search self query2 top_k
  /\ _context_search self query1 top_k = _context_search self query2 top_k
  /\ _keyword_search self (lower query1) top_k = _keyword_search self query1 top_k
  /\ _context_search self (lower query1) top_k = _context_search self query1 top_k
  /\ (embedding_model self = None -> (forall mdl, SentenceTransformer <> Return mdl) ->
      (search_apis self query1 top_k min_similarity).2
      = (search_apis self query2 top_k min_similarity).2).
Proof.
  intros Hq.
  assert (Hkw : _keyword_search self query1 top_k = _keyword_search self query2 top_k)
    by (unfold _keyword_search; by rewrite Hq).
  assert (Hctx : _context_search self query1 top_k = _context_search self query2 top_k)
    by (unfold _context_search; by rewrite Hq).
  split; [exact Hkw|]. split; [exact Hctx|].
  split; [unfold _keyword_search; by rewrite lower_idemp|].
  split; [unfold _context_search; by rewrite lower_idemp|].
  intros Hm Hl. rewrite !search_apis_fused, Hkw, Hctx.
  by rewrite !(semantic_search_unavailable self _ _ Hm Hl).
Qed.

Lemma query_case_is_ignored_witness :
  _keyword_search Demo.degraded "Run" 5 = _keyword_search Demo.degraded "run" 5.
Proof.
  refine (proj1 (query_case_is_ignored (L := Demo.down) Demo.degraded "Run" "run" 5
                   Demo.f0_3 _)).
  vm_compute. reflexivity.
Defined.

End ResultProps.
